(** * code-swap frontend: the streaming session engine

    A shallow embedding of the streaming client ([api/client.ts]), the
    usage estimator ([utils/pricing.ts]), the zustand store
    ([store/appStore.ts]) and the three panels that fold stream events
    into state ([SingleChatPanel.tsx], [ComparePanel.tsx], [CrewPanel.tsx],
    [CrewDashboard.tsx]).

    Conventions of the embedding:
    - a JavaScript string is the list of its UTF-16 code units;
    - a JavaScript number is an IEEE 754 binary64 value ([PrimFloat.float]);
    - an optional field [f?: T] is an [option T], [None] standing for an
      absent key;
    - an async generator is the list of the values it yields together with
      the way it ends (normal return or a thrown value). *)

From Stdlib Require Import List NArith Bool Lia PrimFloat Uint63 ZArith String Ascii.
From Stdlib.Strings Require Import Byte.
Import ListNotations.

Set Warnings "-inexact-float".
Set Implicit Arguments.

(* ================================================================== *)
(** * JavaScript strings *)
(* ================================================================== *)

Module JS.

Definition jsstring := list N.

(** An ASCII literal as a JavaScript string. *)
Definition js (s : string) : jsstring := map N_of_ascii (list_ascii_of_string s).

Fixpoint eqb (a b : jsstring) : bool :=
  match a, b with
  | [], [] => true
  | x :: a', y :: b' => N.eqb x y && eqb a' b'
  | _, _ => false
  end.

(** [s.length > 0], which is also the truthiness of a string. *)
Definition truthy (s : jsstring) : bool :=
  match s with [] => false | _ :: _ => true end.

(** [a || b] on strings. *)
Definition or_else (a b : jsstring) : jsstring := if truthy a then a else b.

(** [s.startsWith(prefix)]. *)
Fixpoint startsWith (s prefix : jsstring) : bool :=
  match prefix, s with
  | [], _ => true
  | p :: ps, c :: cs => N.eqb c p && startsWith cs ps
  | _ :: _, [] => false
  end.

(** [s.slice(n)] for a non-negative [n]. *)
Definition slice (n : nat) (s : jsstring) : jsstring := skipn n s.

(** ECMAScript WhiteSpace and LineTerminator code units, which [trim]
    strips. *)
Definition is_white_space (c : N) : bool :=
  (   (c =? 0x09) || (c =? 0x0A) || (c =? 0x0B) || (c =? 0x0C) || (c =? 0x0D)
   || (c =? 0x20) || (c =? 0xA0) || (c =? 0x1680)
   || ((0x2000 <=? c) && (c <=? 0x200A))
   || (c =? 0x2028) || (c =? 0x2029) || (c =? 0x202F) || (c =? 0x205F)
   || (c =? 0x3000) || (c =? 0xFEFF))%N.

Fixpoint trimStart (s : jsstring) : jsstring :=
  match s with
  | c :: rest => if is_white_space c then trimStart rest else s
  | [] => []
  end.

Definition trim (s : jsstring) : jsstring := rev (trimStart (rev (trimStart s))).

Definition is_newline (c : N) : bool := (c =? 0x0A)%N.

Definition cons_head (c : N) (segs : list jsstring) : list jsstring :=
  match segs with
  | seg :: more => (c :: seg) :: more
  | [] => [[c]]
  end.

(** [s.split("\n\n")]: the separator is searched left to right; where it
    matches, the segment ends and the search resumes after the match. The
    result always has at least one segment. *)
Fixpoint split_nn (s : jsstring) : list jsstring :=
  match s with
  | [] => [[]]
  | c :: rest =>
      match rest with
      | c' :: rest' =>
          if is_newline c && is_newline c' then [] :: split_nn rest'
          else cons_head c (split_nn rest)
      | [] => [[c]]
      end
  end.

End JS.
Import JS.

(* ================================================================== *)
(** * TextDecoder: the streaming UTF-8 decoder of the platform *)
(* ================================================================== *)

(** [new TextDecoder()] with [decode(value, { stream: true })], after the
    WHATWG Encoding Standard: UTF-8, replacement error mode, byte order
    mark stripped. With [stream: true] the end of a chunk is not the end of
    the input, so the decoder carries its state to the next chunk. *)
Module TextDecoder.

Record utf8 := {
  code_point : N;
  bytes_seen : N;
  bytes_needed : N;
  lower_boundary : N;
  upper_boundary : N
}.

Definition fresh : utf8 :=
  {| code_point := 0; bytes_seen := 0; bytes_needed := 0;
     lower_boundary := 0x80; upper_boundary := 0xBF |}.

Inductive result := r_continue | r_code_point (cp : N) | r_error.

(** The handler when no continuation byte is expected. *)
Definition lead (st : utf8) (b : N) : utf8 * result :=
  (if b <=? 0x7F then (st, r_code_point b)
   else if (0xC2 <=? b) && (b <=? 0xDF) then
     ({| code_point := N.land b 0x1F; bytes_seen := bytes_seen st; bytes_needed := 1;
         lower_boundary := lower_boundary st; upper_boundary := upper_boundary st |},
      r_continue)
   else if (0xE0 <=? b) && (b <=? 0xEF) then
     ({| code_point := N.land b 0xF; bytes_seen := bytes_seen st; bytes_needed := 2;
         lower_boundary := if b =? 0xE0 then 0xA0 else lower_boundary st;
         upper_boundary := if b =? 0xED then 0x9F else upper_boundary st |},
      r_continue)
   else if (0xF0 <=? b) && (b <=? 0xF4) then
     ({| code_point := N.land b 0x7; bytes_seen := bytes_seen st; bytes_needed := 3;
         lower_boundary := if b =? 0xF0 then 0x90 else lower_boundary st;
         upper_boundary := if b =? 0xF4 then 0x8F else upper_boundary st |},
      r_continue)
   else (st, r_error))%N.

(** The handler on one byte; the flag tells that the byte was put back on
    the input queue. *)
Definition handler (st : utf8) (b : N) : utf8 * result * bool :=
  (if bytes_needed st =? 0 then (lead st b, false)
   else if negb ((lower_boundary st <=? b) && (b <=? upper_boundary st)) then
     (fresh, r_error, true)
   else
     let cp := N.lor (N.shiftl (code_point st) 6) (N.land b 0x3F) in
     let seen := bytes_seen st + 1 in
     if negb (seen =? bytes_needed st) then
       ({| code_point := cp; bytes_seen := seen; bytes_needed := bytes_needed st;
           lower_boundary := 0x80; upper_boundary := 0xBF |}, r_continue, false)
     else (fresh, r_code_point cp, false))%N.

Definition emit (r : result) : list N :=
  match r with
  | r_continue => []
  | r_code_point cp => [cp]
  | r_error => [0xFFFD%N]
  end.

(** One byte through the handler; a byte put back is read again at once. *)
Definition process_byte (st : utf8) (b : N) : utf8 * list N :=
  let '(st1, r1, restored) := handler st b in
  if restored then
    let '(st2, r2) := lead st1 b in (st2, emit r1 ++ emit r2)
  else (st1, emit r1).

Record t := { machine : utf8; bom_seen : bool }.

Definition create : t := {| machine := fresh; bom_seen := false |}.

(** Serialising the scalar values: the first one is dropped when it is the
    byte order mark. *)
Fixpoint serialize (seen : bool) (items : list N) : bool * list N :=
  match items with
  | [] => (seen, [])
  | item :: more =>
      if negb seen && (item =? 0xFEFF)%N then serialize true more
      else let '(seen', out) := serialize true more in (seen', item :: out)
  end.

(** A scalar value as UTF-16 code units. *)
Definition code_units (cp : N) : jsstring :=
  (if cp <? 0x10000 then [cp]
   else let v := cp - 0x10000 in [0xD800 + v / 0x400; 0xDC00 + v mod 0x400])%N.

Definition decode_byte (d : t) (b : byte) : t * jsstring :=
  let '(st, items) := process_byte (machine d) (Byte.to_N b) in
  let '(seen, out) := serialize (bom_seen d) items in
  ({| machine := st; bom_seen := seen |}, flat_map code_units out).

(** [decoder.decode(value, { stream: true })]. *)
Fixpoint decode (d : t) (value : list byte) : t * jsstring :=
  match value with
  | [] => (d, [])
  | b :: more =>
      let '(d1, s1) := decode_byte d b in
      let '(d2, s2) := decode d1 more in
      (d2, s1 ++ s2)
  end.

End TextDecoder.

(* ================================================================== *)
(** * Streams *)
(* ================================================================== *)

(** A thrown value: an [Error] with its message, or anything else. *)
Inductive Thrown := ErrorObject (message : jsstring) | NotAnError.

Inductive Ending := Finished | Threw (e : Thrown).

(** What a [for await] loop sees of an async generator: the values it
    yields, then a normal return or an exception. *)
Record Stream (E : Type) := { events : list E; ending : Ending }.

Inductive Parsed (E : Type) := Ok (e : E) | SyntaxError (e : Thrown).
Arguments SyntaxError {E} e.

(** The body of a [Response]: the chunks its reader delivers, then
    [done: true] or a rejected read. *)
Record Body := { chunks : list (list byte); reader_end : Ending }.

Record Response := { body : option Body }.

Section FrameDecoder.

Variable E : Type.

(** [JSON.parse(json) as E]. *)
Variable JSON_parse : jsstring -> Parsed E.

(** The [for (const event of events)] loop of one chunk: the events
    yielded, and the exception of [JSON.parse] if it threw. *)
Fixpoint yield_events (evs : list jsstring) : list E * option Thrown :=
  match evs with
  | [] => ([], None)
  | event :: more =>
      if negb (startsWith event (js "data:")) then yield_events more
      else
        let json := trim (slice 5 event) in
        if negb (truthy json) then yield_events more
        else
          match JSON_parse json with
          | Ok e => let '(es, t) := yield_events more in (e :: es, t)
          | SyntaxError t => ([], Some t)
          end
  end.

(** The [while (true)] loop over [reader.read()]. *)
Fixpoint read_loop (decoder : TextDecoder.t) (buffer : jsstring)
    (reads : list (list byte)) (fin : Ending) : Stream E :=
  match reads with
  | [] => {| events := []; ending := fin |}
  | value :: more =>
      let '(decoder', text) := TextDecoder.decode decoder value in
      let buffer := buffer ++ text in
      let evs := split_nn buffer in
      let buffer := or_else (last evs []) [] in
      let evs := removelast evs in
      match yield_events evs with
      | (es, Some t) => {| events := es; ending := Threw t |}
      | (es, None) =>
          let s := read_loop decoder' buffer more fin in
          {| events := es ++ events s; ending := ending s |}
      end
  end.

Definition streamFromResponse (response : Response) : Stream E :=
  match body response with
  | None => {| events := []; ending := Threw (ErrorObject (js "Missing stream body")) |}
  | Some b => read_loop TextDecoder.create [] (chunks b) (reader_end b)
  end.

(** [streamFromCrewResponse] is the same generator, written a second time
    in the source for the crew event type. *)
Definition streamFromCrewResponse (response : Response) : Stream E :=
  match body response with
  | None => {| events := []; ending := Threw (ErrorObject (js "Missing stream body")) |}
  | Some b => read_loop TextDecoder.create [] (chunks b) (reader_end b)
  end.

End FrameDecoder.

(* ================================================================== *)
(** * Numbers and optional fields *)
(* ================================================================== *)

Definition number := float.

(** [x ?? d]. *)
Definition nullish {A : Type} (x : option A) (d : A) : A :=
  match x with Some v => v | None => d end.

(** A non-negative integer below 2^53 as a number. *)
Definition number_of_nat (n : nat) : number := of_uint63 (Uint63.of_Z (Z.of_nat n)).

(** [error instanceof Error ? error.message : fallback]. *)
Definition error_text (e : Thrown) (fallback : jsstring) : jsstring :=
  match e with
  | ErrorObject message => message
  | NotAnError => fallback
  end.

(* ================================================================== *)
(** * utils/pricing.ts *)
(* ================================================================== *)

Module Pricing.

Record PricingRate := { input : number; output : number }.

Definition PRICING : list (jsstring * PricingRate) :=
  [ (js "anthropic/claude-sonnet-4-5", {| input := 3.0; output := 15.0 |});
    (js "anthropic/claude-sonnet-4", {| input := 3.0; output := 15.0 |});
    (js "anthropic/claude-3.5-sonnet", {| input := 3.0; output := 15.0 |});
    (js "anthropic/claude-opus-4", {| input := 15.0; output := 75.0 |});
    (js "anthropic/claude-3-haiku", {| input := 0.25; output := 1.25 |});
    (js "openai/gpt-4.1", {| input := 2.0; output := 8.0 |});
    (js "openai/gpt-4o", {| input := 2.5; output := 10.0 |});
    (js "openai/gpt-4o-mini", {| input := 0.15; output := 0.6 |});
    (js "google/gemini-2.5-pro", {| input := 1.25; output := 10.0 |});
    (js "google/gemini-2.0-flash", {| input := 0.1; output := 0.4 |});
    (js "deepseek/deepseek-r1", {| input := 0.55; output := 2.19 |});
    (js "deepseek/deepseek-chat", {| input := 0.14; output := 0.28 |}) ]%float.

Definition FALLBACK_PRICING_RATE : PricingRate :=
  {| input := 1.0; output := 3.0 |}%float.

Fixpoint own_property {A : Type} (o : list (jsstring * A)) (key : jsstring) : option A :=
  match o with
  | [] => None
  | (k, v) :: more => if JS.eqb k key then Some v else own_property more key
  end.

(** The property names an object literal inherits from [Object.prototype].
    [PRICING[modelId]] finds them when the table has no such key of its
    own; what it finds there is not nullish and has no [input] or [output],
    so both read as [undefined] and the arithmetic on them gives NaN. *)
Definition object_prototype_keys : list jsstring :=
  map js
    [ "constructor"; "__proto__"; "hasOwnProperty"; "isPrototypeOf";
      "propertyIsEnumerable"; "toLocaleString"; "toString"; "valueOf";
      "__defineGetter__"; "__defineSetter__"; "__lookupGetter__";
      "__lookupSetter__" ]%string.

(** [n / 4] rounded up. *)
Definition ceil_quarter (n : nat) : nat := Nat.div (n + 3) 4.

(** [Math.ceil(text.length / 4)]: a string is shorter than 2^53 code
    units, so the division by four and the rounding are exact in
    binary64. *)
Definition estimateTokens (text : jsstring) : number :=
  number_of_nat (ceil_quarter (List.length text)).

Definition getPricing (modelId : jsstring) : PricingRate :=
  match own_property PRICING modelId with
  | Some rate => rate
  | None =>
      if existsb (JS.eqb modelId) object_prototype_keys
      then {| input := nan; output := nan |}
      else FALLBACK_PRICING_RATE
  end.

Definition calculateCost (tokensIn tokensOut : number) (modelId : jsstring) : number :=
  let rate := getPricing modelId in
  ((tokensIn * input rate + tokensOut * output rate) / 1000000)%float.

End Pricing.
Import Pricing.

(* ================================================================== *)
(** * store/appStore.ts *)
(* ================================================================== *)

Module AppStore.

Inductive Status := pending | running | done | failed.

Record AgentOutput := {
  status : Status;
  text : jsstring;
  model : jsstring;
  cost : option number;
  tokens : option number
}.

(** [Partial<AgentOutput>]: [None] is a key the update does not have. *)
Record AgentUpdate := {
  u_status : option Status;
  u_text : option jsstring;
  u_model : option jsstring;
  u_cost : option number;
  u_tokens : option number
}.

(** The fields of [AppState] that the stream handlers read or write. *)
Record AppState := {
  agentOutputs : list (jsstring * AgentOutput);
  synthesisText : jsstring;
  crewTotalCost : number;
  crewBudget : number;
  sessionTokensIn : number;
  sessionTokensOut : number;
  sessionCost : number
}.

Definition initial : AppState :=
  {| agentOutputs := []; synthesisText := []; crewTotalCost := 0;
     crewBudget := 5.0; sessionTokensIn := 0; sessionTokensOut := 0;
     sessionCost := 0 |}%float.

(** ** Objects used as records keyed by string

    The own keys of an object are enumerated with the array indices first,
    in ascending order, then the other strings in the order they were
    added. *)

Definition digit (c : N) : option N :=
  if ((0x30 <=? c) && (c <=? 0x39))%N then Some (c - 0x30)%N else None.

Fixpoint digits_value (acc : N) (s : jsstring) : option N :=
  match s with
  | [] => Some acc
  | c :: more =>
      match digit c with
      | Some d => digits_value (acc * 10 + d)%N more
      | None => None
      end
  end.

(** The array index a key denotes, if it is the canonical decimal form of
    an integer below 2^32 - 1. *)
Definition array_index (key : jsstring) : option N :=
  match key with
  | [] => None
  | c :: more =>
      if (c =? 0x30)%N && truthy more then None
      else
        match digits_value 0 key with
        | Some n => if (n <? 4294967295)%N then Some n else None
        | None => None
        end
  end.

Definition enumerated_before (k k' : jsstring) : bool :=
  match array_index k, array_index k' with
  | Some a, Some b => (a <? b)%N
  | Some _, None => true
  | None, _ => false
  end.

Definition get {A : Type} (o : list (jsstring * A)) (key : jsstring) : option A :=
  own_property o key.

Fixpoint replace {A : Type} (key : jsstring) (v : A) (o : list (jsstring * A))
    : list (jsstring * A) :=
  match o with
  | [] => []
  | (k, v') :: more =>
      if JS.eqb k key then (k, v) :: more else (k, v') :: replace key v more
  end.

Fixpoint add_key {A : Type} (key : jsstring) (v : A) (o : list (jsstring * A))
    : list (jsstring * A) :=
  match o with
  | [] => [(key, v)]
  | (k, v') :: more =>
      if enumerated_before key k then (key, v) :: o
      else (k, v') :: add_key key v more
  end.

(** [{ ...o, [key]: v }]. *)
Definition set {A : Type} (key : jsstring) (v : A) (o : list (jsstring * A))
    : list (jsstring * A) :=
  match get o key with
  | Some _ => replace key v o
  | None => add_key key v o
  end.

Definition default_output : AgentOutput :=
  {| status := pending; text := []; model := []; cost := None; tokens := None |}.

Definition override {A : Type} (old : A) (new : option A) : A :=
  match new with Some v => v | None => old end.

Definition override_opt {A : Type} (old new : option A) : option A :=
  match new with Some v => Some v | None => old end.

(** [{ ...a, ...update }]. *)
Definition merge (a : AgentOutput) (update : AgentUpdate) : AgentOutput :=
  {| status := override (status a) (u_status update);
     text := override (text a) (u_text update);
     model := override (model a) (u_model update);
     cost := override_opt (cost a) (u_cost update);
     tokens := override_opt (tokens a) (u_tokens update) |}.

Definition with_agentOutputs (o : list (jsstring * AgentOutput)) (s : AppState) : AppState :=
  {| agentOutputs := o; synthesisText := synthesisText s;
     crewTotalCost := crewTotalCost s; crewBudget := crewBudget s;
     sessionTokensIn := sessionTokensIn s; sessionTokensOut := sessionTokensOut s;
     sessionCost := sessionCost s |}.

(** [{ ...{status: "pending", text: "", model: ""}, ...state.agentOutputs[agent], ...update }]
    stored under [agent]. *)
Definition updateAgentOutput (agent : jsstring) (update : AgentUpdate) (state : AppState)
    : AppState :=
  let existing := nullish (get (agentOutputs state) agent) default_output in
  with_agentOutputs (set agent (merge existing update) (agentOutputs state)) state.

Definition setSynthesisText (t : jsstring) (state : AppState) : AppState :=
  {| agentOutputs := agentOutputs state; synthesisText := synthesisText state ++ t;
     crewTotalCost := crewTotalCost state; crewBudget := crewBudget state;
     sessionTokensIn := sessionTokensIn state; sessionTokensOut := sessionTokensOut state;
     sessionCost := sessionCost state |}.

Definition setCrewTotalCost (c : number) (state : AppState) : AppState :=
  {| agentOutputs := agentOutputs state; synthesisText := synthesisText state;
     crewTotalCost := c; crewBudget := crewBudget state;
     sessionTokensIn := sessionTokensIn state; sessionTokensOut := sessionTokensOut state;
     sessionCost := sessionCost state |}.

Definition resetCrewState (state : AppState) : AppState :=
  {| agentOutputs := []; synthesisText := []; crewTotalCost := 0%float;
     crewBudget := crewBudget state;
     sessionTokensIn := sessionTokensIn state; sessionTokensOut := sessionTokensOut state;
     sessionCost := sessionCost state |}.

Definition addUsage (tokensIn tokensOut c : number) (state : AppState) : AppState :=
  {| agentOutputs := agentOutputs state; synthesisText := synthesisText state;
     crewTotalCost := crewTotalCost state; crewBudget := crewBudget state;
     sessionTokensIn := (sessionTokensIn state + tokensIn)%float;
     sessionTokensOut := (sessionTokensOut state + tokensOut)%float;
     sessionCost := (sessionCost state + c)%float |}.

Definition resetUsage (state : AppState) : AppState :=
  {| agentOutputs := agentOutputs state; synthesisText := synthesisText state;
     crewTotalCost := crewTotalCost state; crewBudget := crewBudget state;
     sessionTokensIn := 0%float; sessionTokensOut := 0%float;
     sessionCost := 0%float |}.

End AppStore.

(* ================================================================== *)
(** * types/api.ts *)
(* ================================================================== *)

Module Api.

Inductive Provider := openai | anthropic | openrouter.
Inductive KeyMode := vault | local.
Inductive Side := left | right.

Record StreamUsage := {
  prompt_tokens : option number;
  completion_tokens : option number;
  total_tokens : option number
}.

Inductive StreamEvent :=
| ev_start
| ev_delta (text : option jsstring) (side : option Side)
| ev_done (side : option Side) (usage : option StreamUsage)
| ev_complete (side : option Side) (usage : option StreamUsage)
| ev_error (message : option jsstring) (side : option Side).

Record Subtask := { id : jsstring; description : jsstring; assignTo : jsstring }.

Inductive CrewStreamEvent :=
| crew_start (sessionId : option jsstring) (agents : option (list jsstring))
| plan (subtasks : option (list Subtask))
| agent_start (agent subtaskId model : option jsstring)
| agent_delta (agent subtaskId text : option jsstring)
| agent_done (agent subtaskId : option jsstring) (cost tokens : option number)
| synthesis_delta (text : option jsstring)
| crew_done (totalCost : option number)
| crew_error (message : option jsstring).

End Api.
Import Api.

(** The [Choice] of a panel (the store's [ModelChoice]). *)
Record Choice := {
  provider : Provider;
  modelId : jsstring;
  keyMode : KeyMode;
  localApiKey : option jsstring
}.

(** [UsageInfo] of the single panel, [SideUsage] of the compare panel. *)
Record UsageInfo := {
  tokensIn : number;
  tokensOut : number;
  cost : number;
  estimated : bool
}.

(** A truthy optional string: present and not empty. *)
Definition truthy_opt (s : option jsstring) : bool :=
  match s with Some v => truthy v | None => false end.

(** The one method of the store that the chat panels call. *)
Class UsageStore (S : Type) := addUsage : number -> number -> number -> S -> S.

#[export] Instance AppState_UsageStore : UsageStore AppStore.AppState := AppStore.addUsage.

(** A store that only records the calls of [addUsage], in order. *)
Definition UsageLog := list (number * number * number).

#[export] Instance UsageLog_UsageStore : UsageStore UsageLog :=
  fun tokensIn tokensOut c log => log ++ [(tokensIn, tokensOut, c)].

(** The usage a [done] or [complete] event carries, if any. *)
Definition usage_of (ev : StreamEvent) : option StreamUsage :=
  match ev with
  | ev_done _ u => u
  | ev_complete _ u => u
  | _ => None
  end.

Definition side_of (ev : StreamEvent) : option Side :=
  match ev with
  | ev_start => None
  | ev_delta _ s => s
  | ev_done s _ => s
  | ev_complete s _ => s
  | ev_error _ s => s
  end.

(** The [UsageInfo] derived from server-reported usage. *)
Definition server_usage (u : StreamUsage) (model : jsstring) : UsageInfo :=
  let tokensIn := nullish (prompt_tokens u) 0%float in
  let tokensOut := nullish (completion_tokens u) 0%float in
  {| tokensIn := tokensIn; tokensOut := tokensOut;
     cost := calculateCost tokensIn tokensOut model; estimated := false |}.

(** The [UsageInfo] estimated from the prompt and the accumulated text. *)
Definition estimated_usage (prompt acc model : jsstring) : UsageInfo :=
  let tokensIn := estimateTokens prompt in
  let tokensOut := estimateTokens acc in
  {| tokensIn := tokensIn; tokensOut := tokensOut;
     cost := calculateCost tokensIn tokensOut model; estimated := true |}.

(* ================================================================== *)
(** * components/SingleChatPanel.tsx *)
(* ================================================================== *)

Module SingleChatPanel.

Section Panel.

Context {S : Type} {store_methods : UsageStore S}.

(** The component's state and its [promptRef]. *)
Record State := {
  prompt : jsstring;
  imageUrl : jsstring;
  response : jsstring;
  busy : bool;
  usage : option UsageInfo;
  promptRef : jsstring
}.

(** The component state, the store, and the locals of [submit]. *)
Record Run := {
  state : State;
  store : S;
  gotServerUsage : bool;
  accumulated : jsstring
}.

Definition canSend (s : State) : bool := truthy (trim (prompt s)) && negb (busy s).

Definition setResponse (f : jsstring -> jsstring) (s : State) : State :=
  {| prompt := prompt s; imageUrl := imageUrl s; response := f (response s);
     busy := busy s; usage := usage s; promptRef := promptRef s |}.

Definition setUsage (u : option UsageInfo) (s : State) : State :=
  {| prompt := prompt s; imageUrl := imageUrl s; response := response s;
     busy := busy s; usage := u; promptRef := promptRef s |}.

Definition setBusy (b : bool) (s : State) : State :=
  {| prompt := prompt s; imageUrl := imageUrl s; response := response s;
     busy := b; usage := usage s; promptRef := promptRef s |}.

Definition setPromptRef (p : jsstring) (s : State) : State :=
  {| prompt := prompt s; imageUrl := imageUrl s; response := response s;
     busy := busy s; usage := usage s; promptRef := p |}.

(** The first [if] of the loop body. *)
Definition on_delta (r : Run) (eventData : StreamEvent) : Run :=
  match eventData with
  | ev_delta (Some t) _ =>
      if truthy t then
        {| state := setResponse (fun prev => prev ++ t) (state r); store := store r;
           gotServerUsage := gotServerUsage r; accumulated := accumulated r ++ t |}
      else r
  | _ => r
  end.

(** The second [if] of the loop body. *)
Definition on_usage (choice : Choice) (r : Run) (eventData : StreamEvent) : Run :=
  match usage_of eventData with
  | Some u =>
      let info := server_usage u (modelId choice) in
      {| state := setUsage (Some info) (state r);
         store := addUsage (tokensIn info) (tokensOut info) (cost info) (store r);
         gotServerUsage := true; accumulated := accumulated r |}
  | None => r
  end.

Definition loop_body (choice : Choice) (r : Run) (eventData : StreamEvent) : Run :=
  on_usage choice (on_delta r eventData) eventData.

Definition catch (e : Thrown) (r : Run) : Run :=
  {| state := setResponse (fun _ => error_text e (js "Stream failed")) (state r);
     store := store r; gotServerUsage := gotServerUsage r;
     accumulated := accumulated r |}.

Definition finally (choice : Choice) (r : Run) : Run :=
  let r :=
    if negb (gotServerUsage r) && truthy (accumulated r) then
      let info := estimated_usage (promptRef (state r)) (accumulated r) (modelId choice) in
      {| state := setUsage (Some info) (state r);
         store := addUsage (tokensIn info) (tokensOut info) (cost info) (store r);
         gotServerUsage := gotServerUsage r; accumulated := accumulated r |}
    else r in
  {| state := setBusy false (state r); store := store r;
     gotServerUsage := gotServerUsage r; accumulated := accumulated r |}.

(** The state in which the [try] block is entered. *)
Definition begin (s : State) (st : S) : Run :=
  {| state := setPromptRef (prompt s) (setUsage None (setResponse (fun _ => []) (setBusy true s)));
     store := st; gotServerUsage := false; accumulated := [] |}.

(** [submit] on a stream: [streamSingleChat] rejecting is a stream that
    throws before its first event. *)
Definition run (choice : Choice) (s : State) (st : S) (stream : Stream StreamEvent) : Run :=
  let r := fold_left (loop_body choice) (events stream) (begin s st) in
  let r := match ending stream with
           | Finished => r
           | Threw e => catch e r
           end in
  finally choice r.

Definition submit (choice : Choice) (s : State) (st : S) (stream : Stream StreamEvent)
    : State * S :=
  if negb (canSend s) then (s, st)
  else let r := run choice s st stream in (state r, store r).

End Panel.

End SingleChatPanel.

(* ================================================================== *)
(** * components/ComparePanel.tsx *)
(* ================================================================== *)

Module ComparePanel.

Section Panel.

Context {S : Type} {store_methods : UsageStore S}.

(** The component's state and its three refs. *)
Record State := {
  prompt : jsstring;
  leftOutput : jsstring;
  rightOutput : jsstring;
  busy : bool;
  leftUsage : option UsageInfo;
  rightUsage : option UsageInfo;
  promptRef : jsstring;
  leftAccRef : jsstring;
  rightAccRef : jsstring
}.

Record Run := {
  state : State;
  store : S;
  gotLeftUsage : bool;
  gotRightUsage : bool
}.

Definition setLeftOutput (f : jsstring -> jsstring) (s : State) : State :=
  {| prompt := prompt s; leftOutput := f (leftOutput s); rightOutput := rightOutput s;
     busy := busy s; leftUsage := leftUsage s; rightUsage := rightUsage s;
     promptRef := promptRef s; leftAccRef := leftAccRef s; rightAccRef := rightAccRef s |}.

Definition setRightOutput (f : jsstring -> jsstring) (s : State) : State :=
  {| prompt := prompt s; leftOutput := leftOutput s; rightOutput := f (rightOutput s);
     busy := busy s; leftUsage := leftUsage s; rightUsage := rightUsage s;
     promptRef := promptRef s; leftAccRef := leftAccRef s; rightAccRef := rightAccRef s |}.

Definition setBusy (b : bool) (s : State) : State :=
  {| prompt := prompt s; leftOutput := leftOutput s; rightOutput := rightOutput s;
     busy := b; leftUsage := leftUsage s; rightUsage := rightUsage s;
     promptRef := promptRef s; leftAccRef := leftAccRef s; rightAccRef := rightAccRef s |}.

Definition setLeftUsage (u : option UsageInfo) (s : State) : State :=
  {| prompt := prompt s; leftOutput := leftOutput s; rightOutput := rightOutput s;
     busy := busy s; leftUsage := u; rightUsage := rightUsage s;
     promptRef := promptRef s; leftAccRef := leftAccRef s; rightAccRef := rightAccRef s |}.

Definition setRightUsage (u : option UsageInfo) (s : State) : State :=
  {| prompt := prompt s; leftOutput := leftOutput s; rightOutput := rightOutput s;
     busy := busy s; leftUsage := leftUsage s; rightUsage := u;
     promptRef := promptRef s; leftAccRef := leftAccRef s; rightAccRef := rightAccRef s |}.

Definition setPromptRef (p : jsstring) (s : State) : State :=
  {| prompt := prompt s; leftOutput := leftOutput s; rightOutput := rightOutput s;
     busy := busy s; leftUsage := leftUsage s; rightUsage := rightUsage s;
     promptRef := p; leftAccRef := leftAccRef s; rightAccRef := rightAccRef s |}.

Definition setLeftAccRef (a : jsstring) (s : State) : State :=
  {| prompt := prompt s; leftOutput := leftOutput s; rightOutput := rightOutput s;
     busy := busy s; leftUsage := leftUsage s; rightUsage := rightUsage s;
     promptRef := promptRef s; leftAccRef := a; rightAccRef := rightAccRef s |}.

Definition setRightAccRef (a : jsstring) (s : State) : State :=
  {| prompt := prompt s; leftOutput := leftOutput s; rightOutput := rightOutput s;
     busy := busy s; leftUsage := leftUsage s; rightUsage := rightUsage s;
     promptRef := promptRef s; leftAccRef := leftAccRef s; rightAccRef := a |}.

Definition with_state (s : State) (r : Run) : Run :=
  {| state := s; store := store r; gotLeftUsage := gotLeftUsage r;
     gotRightUsage := gotRightUsage r |}.

(** [`Error: ${message}`] kept out of a side that already shows text. *)
Definition show_error (message : jsstring) (prev : jsstring) : jsstring :=
  or_else prev (js "Error: " ++ message).

(** The [if / else if / else if] chain of the loop body. *)
Definition on_text (r : Run) (eventData : StreamEvent) : Run :=
  match eventData with
  | ev_delta t sd =>
      if truthy_opt t then
        let t := nullish t [] in
        match sd with
        | Some left =>
            with_state
              (setLeftOutput (fun prev => prev ++ t)
                 (setLeftAccRef (leftAccRef (state r) ++ t) (state r))) r
        | Some right =>
            with_state
              (setRightOutput (fun prev => prev ++ t)
                 (setRightAccRef (rightAccRef (state r) ++ t) (state r))) r
        | None => r
        end
      else r
  | ev_error m sd =>
      let message := or_else (nullish m []) (js "Stream failed") in
      match sd with
      | Some left => with_state (setLeftOutput (show_error message) (state r)) r
      | Some right => with_state (setRightOutput (show_error message) (state r)) r
      | None =>
          with_state
            (setRightOutput (show_error message)
               (setLeftOutput (show_error message) (state r))) r
      end
  | _ => r
  end.

(** The second [if] of the loop body. *)
Definition on_usage (l r' : Choice) (r : Run) (eventData : StreamEvent) : Run :=
  match usage_of eventData with
  | Some u =>
      match side_of eventData with
      | Some left =>
          let info := server_usage u (modelId l) in
          {| state := setLeftUsage (Some info) (state r);
             store := addUsage (tokensIn info) (tokensOut info) (cost info) (store r);
             gotLeftUsage := true; gotRightUsage := gotRightUsage r |}
      | Some right =>
          let info := server_usage u (modelId r') in
          {| state := setRightUsage (Some info) (state r);
             store := addUsage (tokensIn info) (tokensOut info) (cost info) (store r);
             gotLeftUsage := gotLeftUsage r; gotRightUsage := true |}
      | None => r
      end
  | None => r
  end.

Definition loop_body (l r' : Choice) (r : Run) (eventData : StreamEvent) : Run :=
  on_usage l r' (on_text r eventData) eventData.

Definition catch (e : Thrown) (r : Run) : Run :=
  let t := error_text e (js "Compare stream failed") in
  with_state (setRightOutput (fun _ => t) (setLeftOutput (fun _ => t) (state r))) r.

Definition finally_left (l : Choice) (r : Run) : Run :=
  if negb (gotLeftUsage r) && truthy (leftAccRef (state r)) then
    let info := estimated_usage (promptRef (state r)) (leftAccRef (state r)) (modelId l) in
    {| state := setLeftUsage (Some info) (state r);
       store := addUsage (tokensIn info) (tokensOut info) (cost info) (store r);
       gotLeftUsage := gotLeftUsage r; gotRightUsage := gotRightUsage r |}
  else r.

Definition finally_right (r' : Choice) (r : Run) : Run :=
  if negb (gotRightUsage r) && truthy (rightAccRef (state r)) then
    let info := estimated_usage (promptRef (state r)) (rightAccRef (state r)) (modelId r') in
    {| state := setRightUsage (Some info) (state r);
       store := addUsage (tokensIn info) (tokensOut info) (cost info) (store r);
       gotLeftUsage := gotLeftUsage r; gotRightUsage := gotRightUsage r |}
  else r.

Definition finally (l r' : Choice) (r : Run) : Run :=
  let r := finally_right r' (finally_left l r) in
  with_state (setBusy false (state r)) r.

Definition begin (s : State) (st : S) : Run :=
  {| state :=
       setRightAccRef [] (setLeftAccRef [] (setPromptRef (prompt s)
         (setRightUsage None (setLeftUsage None
           (setRightOutput (fun _ => []) (setLeftOutput (fun _ => []) (setBusy true s)))))));
     store := st; gotLeftUsage := false; gotRightUsage := false |}.

Definition run (l r' : Choice) (s : State) (st : S) (stream : Stream StreamEvent) : Run :=
  let r := fold_left (loop_body l r') (events stream) (begin s st) in
  let r := match ending stream with
           | Finished => r
           | Threw e => catch e r
           end in
  finally l r' r.

Definition submit (l r' : Choice) (s : State) (st : S) (stream : Stream StreamEvent)
    : State * S :=
  if negb (truthy (trim (prompt s))) || busy s then (s, st)
  else let r := run l r' s st stream in (state r, store r).

End Panel.

End ComparePanel.

(* ================================================================== *)
(** * components/CrewPanel.tsx and components/CrewDashboard.tsx *)
(* ================================================================== *)

Module CrewPanel.

Import AppStore.

Record State := {
  task : jsstring;
  isRunning : bool;
  error : option jsstring
}.

Definition setError (e : option jsstring) (s : State) : State :=
  {| task := task s; isRunning := isRunning s; error := e |}.

Definition setIsRunning (b : bool) (s : State) : State :=
  {| task := task s; isRunning := b; error := error s |}.

Definition reset_update : AgentUpdate :=
  {| u_status := Some pending; u_text := Some []; u_model := Some [];
     u_cost := None; u_tokens := None |}.

(** The [switch] of the loop body on the store. *)
Definition on_event (st : AppState) (event : CrewStreamEvent) : AppState :=
  match event with
  | crew_start _ agents =>
      fold_left (fun st a => updateAgentOutput a reset_update st) (nullish agents []) st
  | agent_start agent _ model =>
      if truthy_opt agent then
        updateAgentOutput (nullish agent [])
          {| u_status := Some running; u_text := None;
             u_model := Some (or_else (nullish model []) []);
             u_cost := None; u_tokens := None |} st
      else st
  | agent_delta agent _ t =>
      if truthy_opt agent && truthy_opt t then
        let a := nullish agent [] in
        let prev :=
          match get (agentOutputs st) a with
          | Some o => or_else (text o) []
          | None => []
          end in
        updateAgentOutput a
          {| u_status := None; u_text := Some (prev ++ nullish t []); u_model := None;
             u_cost := None; u_tokens := None |} st
      else st
  | agent_done agent _ c tk =>
      if truthy_opt agent then
        updateAgentOutput (nullish agent [])
          {| u_status := Some done; u_text := None; u_model := None;
             u_cost := c; u_tokens := tk |} st
      else st
  | crew_done totalCost =>
      match totalCost with
      | Some c => setCrewTotalCost c st
      | None => st
      end
  | synthesis_delta t =>
      if truthy_opt t then setSynthesisText (nullish t []) st else st
  | plan _ => st
  | crew_error _ => st
  end.

(** The [switch] of the loop body on the component state. *)
Definition on_event_state (s : State) (event : CrewStreamEvent) : State :=
  match event with
  | crew_error message => setError (Some (or_else (nullish message []) (js "Unknown error"))) s
  | _ => s
  end.

Definition loop_body (p : State * AppState) (event : CrewStreamEvent) : State * AppState :=
  (on_event_state (fst p) event, on_event (snd p) event).

Definition handleSubmit (s : State) (st : AppState) (stream : Stream CrewStreamEvent)
    : State * AppState :=
  if negb (truthy (trim (task s))) || isRunning s then (s, st)
  else
    let p := (setError None (setIsRunning true s), resetCrewState st) in
    let p := fold_left loop_body (events stream) p in
    let p := match ending stream with
             | Finished => p
             | Threw e => (setError (Some (error_text e (js "Stream failed"))) (fst p), snd p)
             end in
    (setIsRunning false (fst p), snd p).

End CrewPanel.

Module CrewDashboard.

Import AppStore.

Definition is_done (s : Status) : bool :=
  match s with done => true | _ => false end.

Definition hasAnyDone (st : AppState) : bool :=
  existsb (fun entry => is_done (status (snd entry))) (agentOutputs st).

Definition totalTokens (st : AppState) : number :=
  fold_left (fun sum entry => (sum + nullish (tokens (snd entry)) 0)%float)
    (agentOutputs st) 0%float.

Definition summedCost (st : AppState) : number :=
  fold_left (fun sum entry => (sum + nullish (cost (snd entry)) 0)%float)
    (agentOutputs st) 0%float.

Definition totalCost (st : AppState) : number :=
  if PrimFloat.ltb 0 (crewTotalCost st) then crewTotalCost st else summedCost st.

(** Whether the row with the totals is rendered. *)
Definition showsTotal (st : AppState) : bool :=
  hasAnyDone st && (PrimFloat.ltb 0 (totalTokens st) || PrimFloat.ltb 0 (totalCost st)).

End CrewDashboard.

(* ================================================================== *)
(** * Vocabulary of the statements *)
(* ================================================================== *)

(** How a generator that has yielded [es] ends: by the exception of
    [JSON.parse], or as the reader ends. *)
Definition finish {E : Type} (r : list E * option Thrown) (fin : Ending) : Stream E :=
  match r with
  | (es, Some t) => {| events := es; ending := Threw t |}
  | (es, None) => {| events := es; ending := fin |}
  end.

(** The text a [delta] event carries ([""] for any other event). *)
Definition delta_text (ev : StreamEvent) : jsstring :=
  match ev with
  | ev_delta (Some t) _ => t
  | _ => []
  end.

(** All the text the [delta] events of a stream carry, in order. *)
Definition streamed_text (evs : list StreamEvent) : jsstring :=
  flat_map delta_text evs.

(** The usage records of the usage-bearing terminal events, in order. *)
Definition usage_events (evs : list StreamEvent) : list StreamUsage :=
  flat_map (fun ev => match usage_of ev with Some u => [u] | None => [] end) evs.

Definition Side_eqb (a b : Side) : bool :=
  match a, b with
  | left, left | right, right => true
  | _, _ => false
  end.

(** The events tagged with a given side. *)
Definition on_side (sd : Side) (ev : StreamEvent) : bool :=
  match side_of ev with
  | Some s => Side_eqb s sd
  | None => false
  end.

Definition side_events (sd : Side) (evs : list StreamEvent) : list StreamEvent :=
  filter (on_side sd) evs.

(** One call of [addUsage] with the figures of a [UsageInfo]. *)
Definition add_info {S : Type} {store_methods : UsageStore S} (i : UsageInfo) (st : S) : S :=
  addUsage (tokensIn i) (tokensOut i) (cost i) st.

Definition call_of (i : UsageInfo) : number * number * number :=
  (tokensIn i, tokensOut i, cost i).

(** The [UsageInfo] of each usage-bearing terminal event that carries a
    side, priced with that side's model, in order. *)
Definition sided_infos (l r : Choice) (evs : list StreamEvent) : list UsageInfo :=
  flat_map
    (fun ev =>
       match usage_of ev, side_of ev with
       | Some u, Some left => [server_usage u (modelId l)]
       | Some u, Some right => [server_usage u (modelId r)]
       | _, _ => []
       end) evs.

(** The end-of-stream estimate of a unit: made only when the unit saw no
    usage-bearing terminal event and some text was accumulated. *)
Definition fallback_infos (reported : list StreamUsage) (prompt acc model : jsstring)
    : list UsageInfo :=
  match reported with
  | [] => if truthy acc then [estimated_usage prompt acc model] else []
  | _ :: _ => []
  end.


(** The part of an event that concerns one side. *)
Definition text_for (sd : Side) (ev : StreamEvent) : jsstring :=
  if on_side sd ev then delta_text ev else [].

Definition usage_for (sd : Side) (ev : StreamEvent) : option StreamUsage :=
  if on_side sd ev then usage_of ev else None.

(** The cost formula in the words of the specification:
    [(tokensIn * input + tokensOut * output) / 1e6]. *)
Definition rate_cost (tokensIn tokensOut : number) (rate : PricingRate) : number :=
  ((tokensIn * input rate + tokensOut * output rate) / 1000000)%float.

(** What the store holds for an agent: nothing is read as the empty
    text, no cost and no tokens. *)
Definition text_of (st : AppStore.AppState) (agent : jsstring) : jsstring :=
  match AppStore.get (AppStore.agentOutputs st) agent with
  | Some o => AppStore.text o
  | None => []
  end.

Definition tokens_of (st : AppStore.AppState) (agent : jsstring) : option number :=
  match AppStore.get (AppStore.agentOutputs st) agent with
  | Some o => AppStore.tokens o
  | None => None
  end.

Definition cost_of (st : AppStore.AppState) (agent : jsstring) : option number :=
  match AppStore.get (AppStore.agentOutputs st) agent with
  | Some o => AppStore.cost o
  | None => None
  end.

(** The events that do not call [setCrewTotalCost]. *)
Definition keeps_total (ev : CrewStreamEvent) : bool :=
  match ev with
  | crew_done (Some _) => false
  | _ => true
  end.

(** ** Sample inputs *)

Definition gpt4o : Choice :=
  {| provider := openai; modelId := js "openai/gpt-4o"; keyMode := vault;
     localApiKey := None |}.

Definition haiku : Choice :=
  {| provider := anthropic; modelId := js "anthropic/claude-3-haiku"; keyMode := vault;
     localApiKey := None |}.

(** The single panel with a prompt typed in. *)
Definition single_typed (p : jsstring) : SingleChatPanel.State :=
  {| SingleChatPanel.prompt := p; SingleChatPanel.imageUrl := [];
     SingleChatPanel.response := []; SingleChatPanel.busy := false;
     SingleChatPanel.usage := None; SingleChatPanel.promptRef := [] |}.

(** The compare panel with a prompt typed in. *)
Definition compare_typed (p : jsstring) : ComparePanel.State :=
  {| ComparePanel.prompt := p; ComparePanel.leftOutput := [];
     ComparePanel.rightOutput := []; ComparePanel.busy := false;
     ComparePanel.leftUsage := None; ComparePanel.rightUsage := None;
     ComparePanel.promptRef := []; ComparePanel.leftAccRef := [];
     ComparePanel.rightAccRef := [] |}.

Definition usage_10_5 : StreamUsage :=
  {| prompt_tokens := Some 10%float; completion_tokens := Some 5%float;
     total_tokens := Some 15%float |}.

(** [delta("Hi"), delta(" there"), done(usage)]. *)
Definition hi_there : Stream StreamEvent :=
  {| events := [ ev_delta (Some (js "Hi")) None; ev_delta (Some (js " there")) None;
                 ev_done None (Some usage_10_5) ];
     ending := Finished |}.

(** The same on the left side of a comparison, with text on the right
    that no terminal event follows. *)
Definition hi_there_left : Stream StreamEvent :=
  {| events := [ ev_delta (Some (js "Hi")) (Some left);
                 ev_delta (Some (js "Hello")) (Some right);
                 ev_delta (Some (js " there")) (Some left);
                 ev_done (Some left) (Some usage_10_5) ];
     ending := Finished |}.

(** The mirror image of [hi_there_left]. *)
Definition hi_there_right : Stream StreamEvent :=
  {| events := [ ev_delta (Some (js "Hi")) (Some right);
                 ev_delta (Some (js "Hello")) (Some left);
                 ev_delta (Some (js " there")) (Some right);
                 ev_complete (Some right) (Some usage_10_5) ];
     ending := Finished |}.

(** [delta("partial")], then the transport fails. *)
Definition partial_then_throw : Stream StreamEvent :=
  {| events := [ ev_delta (Some (js "partial")) None ];
     ending := Threw (ErrorObject (js "network error")) |}.

(** [delta("partial"), error("boom")], then the stream ends. *)
Definition partial_then_error : Stream StreamEvent :=
  {| events := [ ev_delta (Some (js "partial")) None; ev_error (Some (js "boom")) None ];
     ending := Finished |}.

(** [error("boom")] and nothing else. *)
Definition error_only : Stream StreamEvent :=
  {| events := [ ev_error (Some (js "boom")) None ]; ending := Finished |}.

(** Two usage-bearing terminal events in one stream. *)
Definition done_then_complete : Stream StreamEvent :=
  {| events := [ ev_delta (Some (js "Hi")) None; ev_done None (Some usage_10_5);
                 ev_complete None (Some usage_10_5) ];
     ending := Finished |}.

(** The crew scenario of the specification up to [agent_done]. *)
Definition planner_events : list CrewStreamEvent :=
  [ crew_start None (Some [js "planner"]);
    agent_start (Some (js "planner")) None (Some (js "m1"));
    agent_delta (Some (js "planner")) None (Some (js "step 1"));
    agent_done (Some (js "planner")) None (Some 0.02%float) (Some 40%float) ].

(** A parser that yields the payload itself. *)
Definition echo (json : jsstring) : Parsed jsstring := Ok json.

(** Two frames and an unfinished third, cut inside the blank line and
    inside the prefix. *)
Definition sample_reads : list (list byte) :=
  [ list_byte_of_string "data: a" ++ [x0a];
    [x0a] ++ list_byte_of_string "da";
    list_byte_of_string "ta:b " ++ [x0a; x0a] ++ list_byte_of_string "data: c" ].

(** The crew panel with a task typed in. *)
Definition crew_typed (t : jsstring) : CrewPanel.State :=
  {| CrewPanel.task := t; CrewPanel.isRunning := false; CrewPanel.error := None |}.

(** The crew scenario ended by [crew_done] with a given total. *)
Definition planner_stream (total : number) : Stream CrewStreamEvent :=
  {| events := planner_events ++ [crew_done (Some total)]; ending := Finished |}.

(** Text for an agent, then a [crew_start] that lists the agent. *)
Definition late_crew_start : Stream CrewStreamEvent :=
  {| events := [ agent_delta (Some (js "planner")) None (Some (js "step 1"));
                 crew_start None (Some [js "planner"]) ];
     ending := Finished |}.

Definition nonempty {A : Type} (l : list A) : bool :=
  match l with [] => false | _ :: _ => true end.

(** The [UsageInfo] records one unit produces over a stream, in order: one
    per usage-bearing terminal event, then the end-of-stream estimate if
    it is made. *)
Definition unit_infos (evs : list StreamEvent) (prompt model : jsstring) : list UsageInfo :=
  map (fun u => server_usage u model) (usage_events evs)
  ++ fallback_infos (usage_events evs) prompt (streamed_text evs) model.

(** The record a unit shows at the end: the last one produced. *)
Definition last_info (infos : list UsageInfo) : option UsageInfo :=
  fold_left (fun _ i => Some i) infos None.

(* ================================================================== *)
(** * Vocabulary of the further properties *)
(* ================================================================== *)


Definition no_newline (s : jsstring) : bool :=
  forallb (fun c => negb (is_newline c)) s.

Definition ascii_byte (b : byte) : bool := (Byte.to_N b <? 0x80)%N.

(** An ASCII byte other than the line feed. *)
Definition plain_byte (b : byte) : bool :=
  ascii_byte b && negb (is_newline (Byte.to_N b)).

(** ASCII bytes read as text. *)
Definition text_of_bytes (bs : list byte) : jsstring := map Byte.to_N bs.

(** A frame as the server writes it: the data prefix, the payload, a
    blank line. *)
Definition wire_frame (payload : list byte) : list byte :=
  list_byte_of_string "data:" ++ payload ++ [x0a; x0a].

(** The segments the loop of a chunk hands to [JSON.parse]. *)
Definition is_data_frame (event : jsstring) : bool :=
  startsWith event (js "data:") && truthy (trim (slice 5 event)).

(** A parser that rejects one payload. *)
Definition strict_echo (json : jsstring) : Parsed jsstring :=
  if JS.eqb json (js "oops") then SyntaxError (ErrorObject (js "Unexpected token o"))
  else Ok json.

Definition is_error_event (ev : StreamEvent) : bool :=
  match ev with
  | ev_error _ _ => true
  | _ => false
  end.

(** The text a [synthesis_delta] event carries. *)
Definition synthesis_text (ev : CrewStreamEvent) : jsstring :=
  match ev with
  | synthesis_delta (Some t) => t
  | _ => []
  end.

(** The text an [agent_delta] event appends for a given agent. *)
Definition delta_for (a : jsstring) (ev : CrewStreamEvent) : jsstring :=
  match ev with
  | agent_delta agent _ t =>
      if truthy_opt agent && truthy_opt t && JS.eqb (nullish agent []) a
      then nullish t [] else []
  | _ => []
  end.

(** Whether an event names a given agent: a [crew_start] that lists it,
    or an agent event addressed to it. *)
Definition touches (b : jsstring) (ev : CrewStreamEvent) : bool :=
  match ev with
  | crew_start _ agents => existsb (JS.eqb b) (nullish agents [])
  | agent_start agent _ _ => JS.eqb (nullish agent []) b
  | agent_delta agent _ _ => JS.eqb (nullish agent []) b
  | agent_done agent _ _ _ => JS.eqb (nullish agent []) b
  | _ => false
  end.

(** Whether a [crew_start] lists a given agent. *)
Definition lists_agent (b : jsstring) (ev : CrewStreamEvent) : bool :=
  match ev with
  | crew_start _ agents => existsb (JS.eqb b) (nullish agents [])
  | _ => false
  end.

(** The record of an agent as the store would merge into it: the entry,
    or the pending default when there is none. *)
Definition entry (st : AppStore.AppState) (a : jsstring) : AppStore.AgentOutput :=
  nullish (AppStore.get (AppStore.agentOutputs st) a) AppStore.default_output.

(** The agent names in the order [Object.entries] gives them. *)
Definition keys (st : AppStore.AppState) : list jsstring :=
  map fst (AppStore.agentOutputs st).

(** [pricing(modelId)] in the words of the specification: the rate the
    table holds for the id, and the fixed default rate for an id the table
    does not hold. *)
Definition spec_pricing (modelId : jsstring) : PricingRate :=
  match own_property PRICING modelId with
  | Some rate => rate
  | None => {| input := 1.0; output := 3.0 |}%float
  end.

(** Whether a model id is the name of a property every object inherits. *)
Definition inherited_name (modelId : jsstring) : bool :=
  existsb (JS.eqb modelId) object_prototype_keys.

(** A choice whose model id, typed in by hand, is such a name. *)
Definition constructor_choice : Choice :=
  {| provider := openrouter; modelId := js "constructor"; keyMode := vault;
     localApiKey := None |}.

(** A [start] event, then text for the left side. *)
Definition text_then_errors : list StreamEvent :=
  [ ev_start; ev_delta (Some (js "Hi")) (Some left) ].

(** Two [error] events, one for the left side and one without a side,
    then more text for the left side. *)
Definition errors_then_text : list StreamEvent :=
  [ ev_error (Some (js "boom")) (Some left); ev_error (Some (js "bang")) None;
    ev_delta (Some (js " there")) (Some left) ].

(** [hasCost] of the compare panel's render: whether the row with the
    combined cost is shown. *)
Definition hasCost (s : ComparePanel.State) : bool :=
  match ComparePanel.leftUsage s, ComparePanel.rightUsage s with
  | None, None => false
  | _, _ => true
  end.

(** The events the loop of the single panel has no branch for, or whose
    branch does nothing: [start], [error], a [delta] without text, a
    [done] or [complete] without usage. *)
Definition inert_in_single (ev : StreamEvent) : bool :=
  match ev with
  | ev_start => true
  | ev_error _ _ => true
  | ev_delta t _ => negb (truthy_opt t)
  | ev_done _ u => match u with Some _ => false | None => true end
  | ev_complete _ u => match u with Some _ => false | None => true end
  end.

(** The test [hasAnyDone] makes on an entry of the agent records. *)
Definition done_entry (entry : jsstring * AppStore.AgentOutput) : bool :=
  CrewDashboard.is_done (AppStore.status (snd entry)).

(** The events that set an agent's status to done. *)
Definition marks_done (ev : CrewStreamEvent) : bool :=
  match ev with
  | agent_done agent _ _ _ => truthy_opt agent
  | _ => false
  end.

(** The crew scenario cut short before [agent_done]. *)
Definition planner_unfinished : Stream CrewStreamEvent :=
  {| events := [ crew_start None (Some [js "planner"]);
                 agent_start (Some (js "planner")) None (Some (js "m1"));
                 agent_delta (Some (js "planner")) None (Some (js "step 1"));
                 crew_done (Some 0.02%float) ];
     ending := Finished |}.

(** Whether the names of a list are pairwise different. *)
Fixpoint distinct (names : list jsstring) : bool :=
  match names with
  | [] => true
  | a :: more => negb (existsb (JS.eqb a) more) && distinct more
  end.

(** The names that are not array indices keep the order in which they
    were added. *)
Definition plain_name (a : jsstring) : bool :=
  match AppStore.array_index a with
  | Some _ => false
  | None => true
  end.

(** A stream of left events only. *)
Definition left_only : Stream StreamEvent :=
  {| events := [ ev_delta (Some (js "Hi")) (Some left);
                 ev_done (Some left) (Some usage_10_5) ];
     ending := Finished |}.

(** A crew stream with text for two agents and a synthesis in two parts. *)
Definition two_agents : Stream CrewStreamEvent :=
  {| events := [ agent_delta (Some (js "coder")) None (Some (js "fn "));
                 synthesis_delta (Some (js "All "));
                 agent_delta (Some (js "planner")) None (Some (js "step 1"));
                 agent_delta (Some (js "coder")) None (Some (js "main"));
                 agent_done (Some (js "coder")) None (Some 0.01%float) None;
                 synthesis_delta (Some (js "done")) ];
     ending := Finished |}.

(* ================================================================== *)
(** * Properties of the frame decoder *)
(* ================================================================== *)

Lemma jsstring_ind2 (P : list N -> Prop) :
  P [] ->
  (forall c, P [c]) ->
  (forall c c' rest, P rest -> P (c' :: rest) -> P (c :: c' :: rest)) ->
  forall s : list N, P s.
Proof.
  intros Hnil Hone Hstep.
  assert (H : forall s, P s /\ forall c, P (c :: s)).
  { induction s as [|c' rest [IH1 IH2]].
    - split; [exact Hnil | exact Hone].
    - split; [apply IH2 | intros c; apply Hstep; [exact IH1 | apply IH2]]. }
  intros s; apply H.
Qed.

Lemma split_nn_cons2 c c' rest :
  split_nn (c :: c' :: rest) =
  if is_newline c && is_newline c' then [] :: split_nn rest
  else cons_head c (split_nn (c' :: rest)).
Proof. reflexivity. Qed.

Lemma split_nn_not_nil s : split_nn s <> [].
Proof.
  induction s as [|c|c c' rest IH1 IH2] using jsstring_ind2; try discriminate.
  rewrite split_nn_cons2.
  destruct (is_newline c && is_newline c'); [discriminate|].
  destruct (split_nn (c' :: rest)); [contradiction | discriminate].
Qed.

(** A string without a blank line is its own and only segment. *)
Lemma split_nn_single s x : split_nn s = [x] -> x = s.
Proof.
  revert x.
  induction s as [|c|c c' rest IH1 IH2] using jsstring_ind2; intros x.
  - now intros [= <-].
  - now intros [= <-].
  - rewrite split_nn_cons2.
    destruct (is_newline c && is_newline c').
    + intros [= _ H]. now apply split_nn_not_nil in H.
    + destruct (split_nn (c' :: rest)) as [|y ys] eqn:Hs.
      * now apply split_nn_not_nil in Hs.
      * cbn. intros [= <- ->]. now rewrite (IH2 y eq_refl).
Qed.

(** The segment kept as the new buffer holds no blank line. *)
Lemma split_nn_last s : split_nn (last (split_nn s) []) = [last (split_nn s) []].
Proof.
  induction s as [|c|c c' rest IH1 IH2] using jsstring_ind2; try reflexivity.
  rewrite split_nn_cons2.
  destruct (is_newline c && is_newline c') eqn:Hc.
  - destruct (split_nn rest) as [|y ys] eqn:Hs.
    + now apply split_nn_not_nil in Hs.
    + exact IH1.
  - destruct (split_nn (c' :: rest)) as [|y [|y' ys]] eqn:Hs.
    + now apply split_nn_not_nil in Hs.
    + apply split_nn_single in Hs. subst y. cbn [cons_head last].
      rewrite split_nn_cons2, Hc.
      cbn [last] in IH2. now rewrite IH2.
    + exact IH2.
Qed.

(** Splitting a longer text: the complete segments found so far stay, and
    the search goes on from the retained segment. *)
Lemma split_nn_app s t :
  split_nn (s ++ t) =
  removelast (split_nn s) ++ split_nn (last (split_nn s) [] ++ t).
Proof.
  induction s as [|c|c c' rest IH1 IH2] using jsstring_ind2; try reflexivity.
  change ((c :: c' :: rest) ++ t) with (c :: c' :: (rest ++ t)).
  rewrite !split_nn_cons2.
  destruct (is_newline c && is_newline c') eqn:Hc.
  - rewrite IH1.
    destruct (split_nn rest) as [|y ys] eqn:Hs; [now apply split_nn_not_nil in Hs|].
    reflexivity.
  - change (c' :: rest ++ t) with ((c' :: rest) ++ t). rewrite IH2.
    destruct (split_nn (c' :: rest)) as [|y [|y' ys]] eqn:Hs.
    + now apply split_nn_not_nil in Hs.
    + apply split_nn_single in Hs. subst y. cbn [removelast last cons_head app].
      change (c :: (c' :: rest) ++ t) with (c :: c' :: (rest ++ t)).
      now rewrite split_nn_cons2, Hc.
    + reflexivity.
Qed.

Lemma or_else_nil s : or_else s [] = s.
Proof. now destruct s. Qed.

Lemma decode_app d a b :
  TextDecoder.decode d (a ++ b) =
  let '(d1, s1) := TextDecoder.decode d a in
  let '(d2, s2) := TextDecoder.decode d1 b in
  (d2, s1 ++ s2).
Proof.
  revert d. induction a as [|x a IH]; intros d; cbn [app TextDecoder.decode].
  - now destruct (TextDecoder.decode d b).
  - destruct (TextDecoder.decode_byte d x) as [d1 s1].
    rewrite IH.
    destruct (TextDecoder.decode d1 a) as [d2 s2].
    destruct (TextDecoder.decode d2 b) as [d3 s3].
    now rewrite app_assoc.
Qed.

(** The frames of [sample_reads]: the unfinished frame is dropped. *)
Example sample_reads_frames :
  streamFromResponse echo
    {| body := Some {| chunks := sample_reads; reader_end := Finished |} |} =
  {| events := [js "a"; js "b"]; ending := Finished |}.
Proof. reflexivity. Qed.

Section FrameDecoderFacts.

Variable E : Type.
Variable JSON_parse : jsstring -> Parsed E.

Lemma yield_events_app a b :
  yield_events JSON_parse (a ++ b) =
  match yield_events JSON_parse a with
  | (es, Some t) => (es, Some t)
  | (es, None) => let '(es', t) := yield_events JSON_parse b in (es ++ es', t)
  end.
Proof.
  induction a as [|event a IH]; cbn [app yield_events].
  - now destruct (yield_events JSON_parse b).
  - destruct (negb (startsWith event (js "data:"))); [exact IH|].
    destruct (negb (truthy (trim (slice 5 event)))); [exact IH|].
    destruct (JSON_parse (trim (slice 5 event))); [|reflexivity].
    rewrite IH.
    destruct (yield_events JSON_parse a) as [es [t|]]; [reflexivity|].
    now destruct (yield_events JSON_parse b).
Qed.

(** The read loop yields what one pass over the whole decoded text
    yields. *)
Lemma read_loop_whole reads : forall d buffer fin,
  split_nn buffer = [buffer] ->
  read_loop JSON_parse d buffer reads fin =
  finish
    (yield_events JSON_parse
       (removelast (split_nn (buffer ++ snd (TextDecoder.decode d (List.concat reads))))))
    fin.
Proof.
  induction reads as [|value more IH]; intros d buffer fin Hbuf.
  - cbn. now rewrite app_nil_r, Hbuf.
  - cbn [read_loop List.concat]. rewrite decode_app.
    destruct (TextDecoder.decode d value) as [d1 s1].
    destruct (TextDecoder.decode d1 (List.concat more)) as [d2 s2] eqn:Hd.
    cbn [snd]. rewrite or_else_nil.
    rewrite app_assoc, (split_nn_app (buffer ++ s1) s2).
    rewrite removelast_app by apply split_nn_not_nil.
    rewrite yield_events_app.
    destruct (yield_events JSON_parse (removelast (split_nn (buffer ++ s1))))
      as [es [t|]]; [reflexivity|].
    rewrite IH by apply split_nn_last.
    rewrite Hd. cbn [snd].
    now destruct (yield_events JSON_parse
      (removelast (split_nn (last (split_nn (buffer ++ s1)) [] ++ s2)))) as [es' [t|]].
Qed.

Lemma read_loop_chunks reads fin :
  read_loop JSON_parse TextDecoder.create [] reads fin =
  read_loop JSON_parse TextDecoder.create [] [List.concat reads] fin.
Proof.
  rewrite !read_loop_whole by reflexivity.
  cbn [List.concat]. now rewrite app_nil_r.
Qed.

End FrameDecoderFacts.

(** C1. Frame decoding is chunk-boundary independent: whatever the bytes
    and however they are cut into chunks, [streamFromResponse] and
    [streamFromCrewResponse] yield the same events in the same order, and
    end the same way, as on the whole byte sequence delivered as one
    chunk. *)
Theorem chunk_boundary_independence :
  forall (E : Type) (JSON_parse : jsstring -> Parsed E)
         (reads : list (list byte)) (fin : Ending),
    streamFromResponse JSON_parse
      {| body := Some {| chunks := reads; reader_end := fin |} |} =
    streamFromResponse JSON_parse
      {| body := Some {| chunks := [List.concat reads]; reader_end := fin |} |}
    /\
    streamFromCrewResponse JSON_parse
      {| body := Some {| chunks := reads; reader_end := fin |} |} =
    streamFromCrewResponse JSON_parse
      {| body := Some {| chunks := [List.concat reads]; reader_end := fin |} |}.
Proof.
  intros E JSON_parse reads fin.
  unfold streamFromResponse, streamFromCrewResponse; cbn [body chunks reader_end].
  split; apply read_loop_chunks.
Qed.

(* ================================================================== *)
(** * Properties of the single chat panel *)
(* ================================================================== *)

Lemma usage_events_cons ev evs :
  usage_events (ev :: evs) =
  match usage_of ev with Some u => u :: usage_events evs | None => usage_events evs end.
Proof. unfold usage_events; cbn. now destruct (usage_of ev). Qed.

Lemma fold_last_info (infos : list UsageInfo) (o : option UsageInfo) :
  fold_left (fun _ i => Some i) infos o =
  match infos with [] => o | _ :: _ => last_info infos end.
Proof.
  destruct infos as [|i infos]; [reflexivity|].
  unfold last_info; cbn. reflexivity.
Qed.

Module SingleFacts.

Import SingleChatPanel.

Section Facts.

Context {S : Type} {store_methods : UsageStore S}.
Variable choice : Choice.

(** What one turn of the loop does to each part of the run. *)
Lemma single_loop_body_step (r : Run) ev :
  let r' := loop_body choice r ev in
  accumulated r' = accumulated r ++ delta_text ev
  /\ response (state r') = response (state r) ++ delta_text ev
  /\ usage (state r') =
       match usage_of ev with Some u => Some (server_usage u (modelId choice)) | None => usage (state r) end
  /\ store r' =
       match usage_of ev with Some u => add_info (server_usage u (modelId choice)) (store r) | None => store r end
  /\ gotServerUsage r' =
       match usage_of ev with Some _ => true | None => gotServerUsage r end
  /\ promptRef (state r') = promptRef (state r).
Proof.
  destruct ev as [|[[|c t]|] sd|sd [u|]|sd [u|]|m sd]; cbn;
    rewrite ?app_nil_r; repeat split; reflexivity.
Qed.

(** The loop over all the events of a stream. *)
Lemma single_loop_spec evs : forall r : Run,
  let r' := fold_left (loop_body choice) evs r in
  accumulated r' = accumulated r ++ streamed_text evs
  /\ response (state r') = response (state r) ++ streamed_text evs
  /\ usage (state r') = fold_left (fun _ i => Some i) (map (fun u => server_usage u (modelId choice)) (usage_events evs)) (usage (state r))
  /\ store r' = fold_left (fun st i => add_info i st) (map (fun u => server_usage u (modelId choice)) (usage_events evs)) (store r)
  /\ gotServerUsage r' = gotServerUsage r || nonempty (usage_events evs)
  /\ promptRef (state r') = promptRef (state r).
Proof.
  induction evs as [|ev evs IH]; intros r.
  - cbn. rewrite !app_nil_r, orb_false_r. repeat split; reflexivity.
  - cbn [fold_left] in *. cbv zeta in *.
    destruct (IH (loop_body choice r ev)) as (Ha & Hr & Hu & Hs & Hg & Hp).
    destruct (single_loop_body_step r ev) as (Ha1 & Hr1 & Hu1 & Hs1 & Hg1 & Hp1).
    rewrite Ha, Hr, Hu, Hs, Hg, Hp, Ha1, Hr1, Hu1, Hs1, Hg1, Hp1.
    rewrite usage_events_cons.
    unfold streamed_text; cbn [flat_map]; rewrite <- !app_assoc.
    destruct (usage_of ev) as [u|]; cbn [map fold_left nonempty];
      rewrite ?orb_true_r; repeat split; reflexivity.
Qed.

(** The whole of [submit] once it has passed its guard. *)
Lemma single_run_spec (s : State) (st : S) (stream : Stream StreamEvent) :
  let r := run choice s st stream in
  let infos := unit_infos (events stream) (prompt s) (modelId choice) in
  usage (state r) = last_info infos
  /\ store r = fold_left (fun st i => add_info i st) infos st
  /\ response (state r) =
       match ending stream with
       | Finished => streamed_text (events stream)
       | Threw e => error_text e (js "Stream failed")
       end
  /\ busy (state r) = false.
Proof.
  unfold run.
  destruct (single_loop_spec (events stream) (begin s st)) as (Ha & Hr & Hu & Hs & Hg & Hp).
  set (r0 := fold_left (loop_body choice) (events stream) (begin s st)) in *.
  cbn in Ha, Hr, Hu, Hs, Hg, Hp.
  assert (Hc : forall r1 : Run,
             accumulated r1 = accumulated r0 -> gotServerUsage r1 = gotServerUsage r0 ->
             usage (state r1) = usage (state r0) -> store r1 = store r0 ->
             promptRef (state r1) = promptRef (state r0) ->
             usage (state (finally choice r1)) =
               last_info (unit_infos (events stream) (prompt s) (modelId choice))
             /\ store (finally choice r1) =
                  fold_left (fun st i => add_info i st)
                    (unit_infos (events stream) (prompt s) (modelId choice)) st
             /\ response (state (finally choice r1)) = response (state r1)
             /\ busy (state (finally choice r1)) = false).
  { intros r1 E1 E2 E3 E4 E5. unfold finally, unit_infos, last_info.
    rewrite E1, E2, E5, Ha, Hg, Hp, !fold_left_app, <- Hu, <- Hs, <- E3, <- E4.
    unfold fallback_infos.
    destruct (usage_events (events stream)) as [|u us]; cbn [nonempty negb andb].
    - destruct (truthy (streamed_text (events stream))); cbn; repeat split; reflexivity.
    - cbn; repeat split; reflexivity. }
  destruct (ending stream) as [|e].
  - destruct (Hc r0) as (H1 & H2 & H3 & H4); try reflexivity.
    cbn zeta. rewrite H1, H2, H3, H4, Hr. repeat split; reflexivity.
  - destruct (Hc (catch e r0)) as (H1 & H2 & H3 & H4); try reflexivity.
    cbn zeta. rewrite H1, H2, H3, H4. repeat split; reflexivity.
Qed.

Lemma single_submit_spec (s : State) (st : S) (stream : Stream StreamEvent) :
  canSend s = true ->
  submit choice s st stream =
  (state (run choice s st stream), store (run choice s st stream)).
Proof. unfold submit. now intros ->. Qed.

End Facts.

End SingleFacts.

(* ================================================================== *)
(** * Properties of the compare panel *)
(* ================================================================== *)

Lemma side_events_cons sd ev evs :
  side_events sd (ev :: evs) =
  if on_side sd ev then ev :: side_events sd evs else side_events sd evs.
Proof. reflexivity. Qed.

Lemma streamed_text_cons ev evs :
  streamed_text (ev :: evs) = delta_text ev ++ streamed_text evs.
Proof. reflexivity. Qed.

Lemma sided_infos_cons l r ev evs :
  sided_infos l r (ev :: evs) = sided_infos l r [ev] ++ sided_infos l r evs.
Proof. unfold sided_infos; cbn [flat_map]. now rewrite app_nil_r. Qed.

Module CompareFacts.

Import ComparePanel.

Section Facts.

Context {S : Type} {store_methods : UsageStore S}.
Variables l r' : Choice.

Lemma compare_loop_body_step (r : Run) ev :
  let q := loop_body l r' r ev in
  leftAccRef (state q) = leftAccRef (state r) ++ text_for left ev
  /\ rightAccRef (state q) = rightAccRef (state r) ++ text_for right ev
  /\ leftUsage (state q) =
       match usage_for left ev with
       | Some u => Some (server_usage u (modelId l))
       | None => leftUsage (state r)
       end
  /\ rightUsage (state q) =
       match usage_for right ev with
       | Some u => Some (server_usage u (modelId r'))
       | None => rightUsage (state r)
       end
  /\ gotLeftUsage q =
       match usage_for left ev with Some _ => true | None => gotLeftUsage r end
  /\ gotRightUsage q =
       match usage_for right ev with Some _ => true | None => gotRightUsage r end
  /\ store q = fold_left (fun st i => add_info i st) (sided_infos l r' [ev]) (store r)
  /\ promptRef (state q) = promptRef (state r).
Proof.
  destruct ev as [|[[|c t]|] [[|]|]|[[|]|] [u|]|[[|]|] [u|]|m [[|]|]]; cbn;
    rewrite ?app_nil_r; repeat split; reflexivity.
Qed.

Lemma side_text_cons sd ev evs :
  streamed_text (side_events sd (ev :: evs)) =
  text_for sd ev ++ streamed_text (side_events sd evs).
Proof.
  rewrite side_events_cons. unfold text_for.
  now destruct (on_side sd ev).
Qed.

Lemma side_usage_cons sd ev evs :
  usage_events (side_events sd (ev :: evs)) =
  match usage_for sd ev with
  | Some u => u :: usage_events (side_events sd evs)
  | None => usage_events (side_events sd evs)
  end.
Proof.
  rewrite side_events_cons. unfold usage_for.
  destruct (on_side sd ev); [apply usage_events_cons | reflexivity].
Qed.

Lemma compare_loop_spec evs : forall r : Run,
  let q := fold_left (loop_body l r') evs r in
  leftAccRef (state q) = leftAccRef (state r) ++ streamed_text (side_events left evs)
  /\ rightAccRef (state q) = rightAccRef (state r) ++ streamed_text (side_events right evs)
  /\ leftUsage (state q) =
       fold_left (fun _ i => Some i)
         (map (fun u => server_usage u (modelId l)) (usage_events (side_events left evs)))
         (leftUsage (state r))
  /\ rightUsage (state q) =
       fold_left (fun _ i => Some i)
         (map (fun u => server_usage u (modelId r')) (usage_events (side_events right evs)))
         (rightUsage (state r))
  /\ gotLeftUsage q = gotLeftUsage r || nonempty (usage_events (side_events left evs))
  /\ gotRightUsage q = gotRightUsage r || nonempty (usage_events (side_events right evs))
  /\ store q = fold_left (fun st i => add_info i st) (sided_infos l r' evs) (store r)
  /\ promptRef (state q) = promptRef (state r).
Proof.
  induction evs as [|ev evs IH]; intros r.
  - cbn. rewrite !app_nil_r, !orb_false_r. repeat split; reflexivity.
  - cbn [fold_left] in *. cbv zeta in *.
    destruct (IH (loop_body l r' r ev)) as (A1 & A2 & A3 & A4 & A5 & A6 & A7 & A8).
    destruct (compare_loop_body_step r ev) as (B1 & B2 & B3 & B4 & B5 & B6 & B7 & B8).
    rewrite A1, A2, A3, A4, A5, A6, A7, A8, B1, B2, B3, B4, B5, B6, B7, B8.
    rewrite !side_text_cons, !side_usage_cons, (sided_infos_cons l r' ev evs).
    rewrite fold_left_app, <- !app_assoc.
    destruct (usage_for left ev), (usage_for right ev); cbn [map fold_left nonempty];
      rewrite ?orb_true_r; repeat split; reflexivity.
Qed.

Lemma finally_left_spec (r : Run) :
  let q := finally_left l r in
  let fb := if negb (gotLeftUsage r) && truthy (leftAccRef (state r))
            then [estimated_usage (promptRef (state r)) (leftAccRef (state r)) (modelId l)]
            else [] in
  leftUsage (state q) = fold_left (fun _ i => Some i) fb (leftUsage (state r))
  /\ rightUsage (state q) = rightUsage (state r)
  /\ store q = fold_left (fun st i => add_info i st) fb (store r)
  /\ gotRightUsage q = gotRightUsage r
  /\ rightAccRef (state q) = rightAccRef (state r)
  /\ promptRef (state q) = promptRef (state r).
Proof.
  unfold finally_left.
  destruct (negb (gotLeftUsage r) && truthy (leftAccRef (state r)));
    cbn; repeat split; reflexivity.
Qed.

Lemma finally_right_spec (r : Run) :
  let q := finally_right r' r in
  let fb := if negb (gotRightUsage r) && truthy (rightAccRef (state r))
            then [estimated_usage (promptRef (state r)) (rightAccRef (state r)) (modelId r')]
            else [] in
  rightUsage (state q) = fold_left (fun _ i => Some i) fb (rightUsage (state r))
  /\ leftUsage (state q) = leftUsage (state r)
  /\ store q = fold_left (fun st i => add_info i st) fb (store r).
Proof.
  unfold finally_right.
  destruct (negb (gotRightUsage r) && truthy (rightAccRef (state r)));
    cbn; repeat split; reflexivity.
Qed.

Lemma fallback_infos_guard (reported : list StreamUsage) (p acc model : jsstring) :
  (if negb (nonempty reported) && truthy acc
   then [estimated_usage p acc model] else []) =
  fallback_infos reported p acc model.
Proof. now destruct reported. Qed.

(** The whole of [submit] once it has passed its guard. *)
Lemma compare_run_spec (s : State) (st : S) (stream : Stream StreamEvent) :
  let r := run l r' s st stream in
  let evs := events stream in
  let lefts := side_events left evs in
  let rights := side_events right evs in
  leftUsage (state r) = last_info (unit_infos lefts (prompt s) (modelId l))
  /\ rightUsage (state r) = last_info (unit_infos rights (prompt s) (modelId r'))
  /\ store r =
       fold_left (fun st i => add_info i st)
         (sided_infos l r' evs
          ++ fallback_infos (usage_events lefts) (prompt s) (streamed_text lefts) (modelId l)
          ++ fallback_infos (usage_events rights) (prompt s) (streamed_text rights) (modelId r'))
         st.
Proof.
  unfold run.
  destruct (compare_loop_spec (events stream) (begin s st))
    as (A1 & A2 & A3 & A4 & A5 & A6 & A7 & A8).
  set (r0 := fold_left (loop_body l r') (events stream) (begin s st)) in *.
  cbn in A1, A2, A3, A4, A5, A6, A7, A8.
  assert (Hc : forall r1 : Run,
             leftAccRef (state r1) = leftAccRef (state r0) ->
             rightAccRef (state r1) = rightAccRef (state r0) ->
             leftUsage (state r1) = leftUsage (state r0) ->
             rightUsage (state r1) = rightUsage (state r0) ->
             gotLeftUsage r1 = gotLeftUsage r0 ->
             gotRightUsage r1 = gotRightUsage r0 ->
             store r1 = store r0 ->
             promptRef (state r1) = promptRef (state r0) ->
             leftUsage (state (finally l r' r1)) =
               last_info (unit_infos (side_events left (events stream)) (prompt s) (modelId l))
             /\ rightUsage (state (finally l r' r1)) =
               last_info (unit_infos (side_events right (events stream)) (prompt s) (modelId r'))
             /\ store (finally l r' r1) =
                  fold_left (fun st i => add_info i st)
                    (sided_infos l r' (events stream)
                     ++ fallback_infos (usage_events (side_events left (events stream)))
                          (prompt s) (streamed_text (side_events left (events stream))) (modelId l)
                     ++ fallback_infos (usage_events (side_events right (events stream)))
                          (prompt s) (streamed_text (side_events right (events stream))) (modelId r'))
                    st).
  { intros r1 E1 E2 E3 E4 E5 E6 E7 E8. unfold finally.
    destruct (finally_left_spec r1) as (L1 & L2 & L3 & L4 & L5 & L6).
    destruct (finally_right_spec (finally_left l r1)) as (R1 & R2 & R3).
    cbv zeta in *. cbn [state store with_state leftUsage rightUsage setBusy].
    rewrite R1, R2, R3, L1, L2, L3, L4, L5, L6.
    rewrite E1, E2, E3, E4, E5, E6, E7, E8, A1, A2, A3, A4, A5, A6, A7, A8.
    rewrite !fallback_infos_guard.
    unfold unit_infos, last_info. rewrite !fold_left_app.
    repeat split; reflexivity. }
  destruct (ending stream) as [|e]; cbv zeta.
  - apply Hc; reflexivity.
  - apply Hc; reflexivity.
Qed.

Lemma compare_submit_spec (s : State) (st : S) (stream : Stream StreamEvent) :
  truthy (trim (prompt s)) = true -> busy s = false ->
  submit l r' s st stream =
  (state (run l r' s st stream), store (run l r' s st stream)).
Proof. unfold submit. now intros -> ->. Qed.

End Facts.

End CompareFacts.

(* ================================================================== *)
(** * Usage accounting of a unit *)
(* ================================================================== *)

(** [ceil_quarter] is the ceiling of a quarter. *)
Lemma ceil_quarter_spec n : n <= 4 * ceil_quarter n < n + 4.
Proof.
  unfold ceil_quarter.
  pose proof (Nat.div_mod_eq (n + 3) 4) as H.
  pose proof (Nat.mod_upper_bound (n + 3) 4 ltac:(discriminate)) as Hlt.
  lia.
Qed.

Lemma server_usage_eq u model :
  server_usage u model =
  {| tokensIn := nullish (prompt_tokens u) 0%float;
     tokensOut := nullish (completion_tokens u) 0%float;
     cost := rate_cost (nullish (prompt_tokens u) 0%float)
               (nullish (completion_tokens u) 0%float) (getPricing model);
     estimated := false |}.
Proof. reflexivity. Qed.

Lemma estimated_usage_eq p acc model :
  estimated_usage p acc model =
  {| tokensIn := number_of_nat (ceil_quarter (List.length p));
     tokensOut := number_of_nat (ceil_quarter (List.length acc));
     cost := rate_cost (number_of_nat (ceil_quarter (List.length p)))
               (number_of_nat (ceil_quarter (List.length acc))) (getPricing model);
     estimated := true |}.
Proof. reflexivity. Qed.

Lemma unit_infos_one evs p model u :
  usage_events evs = [u] -> last_info (unit_infos evs p model) = Some (server_usage u model).
Proof. unfold unit_infos. now intros ->. Qed.

Lemma unit_infos_none evs p model :
  usage_events evs = [] -> truthy (streamed_text evs) = true ->
  unit_infos evs p model = [estimated_usage p (streamed_text evs) model].
Proof. unfold unit_infos, fallback_infos. now intros -> ->. Qed.

(** The record of a unit with exactly one usage-bearing terminal event,
    with the rate as [getPricing] gives it. *)
Lemma server_usage_is_reported :
  (forall (S : Type) (M : UsageStore S) (choice : Choice) (s : SingleChatPanel.State)
          (st : S) (stream : Stream StreamEvent) (u : StreamUsage),
      SingleChatPanel.canSend s = true ->
      usage_events (events stream) = [u] ->
      SingleChatPanel.usage (fst (SingleChatPanel.submit choice s st stream)) =
      Some {| tokensIn := nullish (prompt_tokens u) 0%float;
              tokensOut := nullish (completion_tokens u) 0%float;
              cost := rate_cost (nullish (prompt_tokens u) 0%float)
                        (nullish (completion_tokens u) 0%float)
                        (getPricing (modelId choice));
              estimated := false |})
  /\
  (forall (S : Type) (M : UsageStore S) (l r : Choice) (s : ComparePanel.State)
          (st : S) (stream : Stream StreamEvent) (u : StreamUsage),
      truthy (trim (ComparePanel.prompt s)) = true -> ComparePanel.busy s = false ->
      usage_events (side_events left (events stream)) = [u] ->
      ComparePanel.leftUsage (fst (ComparePanel.submit l r s st stream)) =
      Some {| tokensIn := nullish (prompt_tokens u) 0%float;
              tokensOut := nullish (completion_tokens u) 0%float;
              cost := rate_cost (nullish (prompt_tokens u) 0%float)
                        (nullish (completion_tokens u) 0%float)
                        (getPricing (modelId l));
              estimated := false |})
  /\
  (forall (S : Type) (M : UsageStore S) (l r : Choice) (s : ComparePanel.State)
          (st : S) (stream : Stream StreamEvent) (u : StreamUsage),
      truthy (trim (ComparePanel.prompt s)) = true -> ComparePanel.busy s = false ->
      usage_events (side_events right (events stream)) = [u] ->
      ComparePanel.rightUsage (fst (ComparePanel.submit l r s st stream)) =
      Some {| tokensIn := nullish (prompt_tokens u) 0%float;
              tokensOut := nullish (completion_tokens u) 0%float;
              cost := rate_cost (nullish (prompt_tokens u) 0%float)
                        (nullish (completion_tokens u) 0%float)
                        (getPricing (modelId r));
              estimated := false |}).
Proof.
  split; [|split].
  - intros S M choice s st stream u Hsend Hone.
    rewrite SingleFacts.single_submit_spec by exact Hsend. cbn [fst].
    destruct (SingleFacts.single_run_spec choice s st stream) as (Hu & _).
    rewrite Hu. erewrite unit_infos_one by eassumption. reflexivity.
  - intros S M l r s st stream u Hp Hb Hone.
    rewrite CompareFacts.compare_submit_spec by assumption. cbn [fst].
    destruct (CompareFacts.compare_run_spec l r s st stream) as (Hu & _).
    rewrite Hu. erewrite unit_infos_one by eassumption. reflexivity.
  - intros S M l r s st stream u Hp Hb Hone.
    rewrite CompareFacts.compare_submit_spec by assumption. cbn [fst].
    destruct (CompareFacts.compare_run_spec l r s st stream) as (_ & Hu & _).
    rewrite Hu. erewrite unit_infos_one by eassumption. reflexivity.
Qed.

Lemma getPricing_spec (m : jsstring) :
  inherited_name m = false -> getPricing m = spec_pricing m.
Proof.
  unfold getPricing, spec_pricing, inherited_name. intros H.
  destruct (own_property PRICING m); [reflexivity|]. now rewrite H.
Qed.

(** C2. With exactly one usage-bearing terminal event for a unit, the
    unit's [UsageInfo] is the server's: not estimated, the tokens of the
    event's usage (a count the usage leaves out reads as 0), and the cost
    [(tokensIn * input + tokensOut * output) / 1e6] at the rate the
    pricing table holds for the unit's model id, or at the default rate
    when the table does not hold the id - for every model id that is not
    the name of a property objects inherit. For such a name, [constructor]
    for one, the lookup finds the inherited property, the default rate is
    not used, and the cost, and with it the session cost, is NaN. The
    unit is the stream of the single panel, or one side of the compare
    panel. *)
Theorem server_usage_cost_by_model_id :
  (forall (S : Type) (M : UsageStore S) (choice : Choice) (s : SingleChatPanel.State)
          (st : S) (stream : Stream StreamEvent) (u : StreamUsage),
      SingleChatPanel.canSend s = true ->
      usage_events (events stream) = [u] ->
      inherited_name (modelId choice) = false ->
      SingleChatPanel.usage (fst (SingleChatPanel.submit choice s st stream)) =
      Some {| tokensIn := nullish (prompt_tokens u) 0%float;
              tokensOut := nullish (completion_tokens u) 0%float;
              cost := rate_cost (nullish (prompt_tokens u) 0%float)
                        (nullish (completion_tokens u) 0%float)
                        (spec_pricing (modelId choice));
              estimated := false |})
  /\
  (forall (S : Type) (M : UsageStore S) (l r : Choice) (s : ComparePanel.State)
          (st : S) (stream : Stream StreamEvent) (u : StreamUsage),
      truthy (trim (ComparePanel.prompt s)) = true -> ComparePanel.busy s = false ->
      usage_events (side_events left (events stream)) = [u] ->
      inherited_name (modelId l) = false ->
      ComparePanel.leftUsage (fst (ComparePanel.submit l r s st stream)) =
      Some {| tokensIn := nullish (prompt_tokens u) 0%float;
              tokensOut := nullish (completion_tokens u) 0%float;
              cost := rate_cost (nullish (prompt_tokens u) 0%float)
                        (nullish (completion_tokens u) 0%float)
                        (spec_pricing (modelId l));
              estimated := false |})
  /\
  (forall (S : Type) (M : UsageStore S) (l r : Choice) (s : ComparePanel.State)
          (st : S) (stream : Stream StreamEvent) (u : StreamUsage),
      truthy (trim (ComparePanel.prompt s)) = true -> ComparePanel.busy s = false ->
      usage_events (side_events right (events stream)) = [u] ->
      inherited_name (modelId r) = false ->
      ComparePanel.rightUsage (fst (ComparePanel.submit l r s st stream)) =
      Some {| tokensIn := nullish (prompt_tokens u) 0%float;
              tokensOut := nullish (completion_tokens u) 0%float;
              cost := rate_cost (nullish (prompt_tokens u) 0%float)
                        (nullish (completion_tokens u) 0%float)
                        (spec_pricing (modelId r));
              estimated := false |})
  /\
  (let r := SingleChatPanel.submit constructor_choice (single_typed (js "hi"))
              AppStore.initial hi_there in
   own_property PRICING (js "constructor") = None
   /\ rate_cost 10%float 5%float (spec_pricing (js "constructor")) = (25 / 1000000)%float
   /\ SingleChatPanel.usage (fst r) =
        Some {| tokensIn := 10%float; tokensOut := 5%float; cost := nan;
                estimated := false |}
   /\ AppStore.sessionCost (snd r) = nan).
Proof.
  split; [|split; [|split]].
  - intros S M choice s st stream u Hsend Hone Hm.
    rewrite <- (getPricing_spec _ Hm).
    now apply (proj1 server_usage_is_reported).
  - intros S M l r s st stream u Hp Hb Hone Hm.
    rewrite <- (getPricing_spec _ Hm).
    now apply (proj1 (proj2 server_usage_is_reported)).
  - intros S M l r s st stream u Hp Hb Hone Hm.
    rewrite <- (getPricing_spec _ Hm).
    now apply (proj2 (proj2 server_usage_is_reported)).
  - vm_compute. repeat split; reflexivity.
Qed.

(** The scenario of the specification at the rate of [openai/gpt-4o],
    2.5 and 10 per million tokens, and its two mirror images in the
    compare panel, the right one at the rate of
    [anthropic/claude-3-haiku], 0.25 and 1.25; then a model id the table
    does not hold, at the default rate, 1 and 3. *)
Lemma server_usage_cost_by_model_id_witness :
  SingleChatPanel.usage
    (fst (SingleChatPanel.submit gpt4o (single_typed (js "hi")) AppStore.initial hi_there)) =
  Some {| tokensIn := 10%float; tokensOut := 5%float;
          cost := ((10 * 2.5 + 5 * 10) / 1000000)%float; estimated := false |}
  /\
  ComparePanel.leftUsage
    (fst (ComparePanel.submit gpt4o haiku (compare_typed (js "hi")) AppStore.initial
            hi_there_left)) =
  Some {| tokensIn := 10%float; tokensOut := 5%float;
          cost := ((10 * 2.5 + 5 * 10) / 1000000)%float; estimated := false |}
  /\
  ComparePanel.rightUsage
    (fst (ComparePanel.submit gpt4o haiku (compare_typed (js "hi")) AppStore.initial
            hi_there_right)) =
  Some {| tokensIn := 10%float; tokensOut := 5%float;
          cost := ((10 * 0.25 + 5 * 1.25) / 1000000)%float; estimated := false |}
  /\
  SingleChatPanel.usage
    (fst (SingleChatPanel.submit
            {| provider := openrouter; modelId := js "openrouter/auto"; keyMode := vault;
               localApiKey := None |}
            (single_typed (js "hi")) AppStore.initial hi_there)) =
  Some {| tokensIn := 10%float; tokensOut := 5%float;
          cost := ((10 * 1 + 5 * 3) / 1000000)%float; estimated := false |}.
Proof.
  split; [|split; [|split]].
  - exact (proj1 server_usage_cost_by_model_id _ _ gpt4o (single_typed (js "hi"))
             AppStore.initial hi_there usage_10_5 eq_refl eq_refl eq_refl).
  - exact (proj1 (proj2 server_usage_cost_by_model_id) _ _ gpt4o haiku
             (compare_typed (js "hi")) AppStore.initial hi_there_left usage_10_5
             eq_refl eq_refl eq_refl eq_refl).
  - exact (proj1 (proj2 (proj2 server_usage_cost_by_model_id)) _ _ gpt4o haiku
             (compare_typed (js "hi")) AppStore.initial hi_there_right usage_10_5
             eq_refl eq_refl eq_refl eq_refl).
  - exact (proj1 server_usage_cost_by_model_id _ _
             {| provider := openrouter; modelId := js "openrouter/auto"; keyMode := vault;
                localApiKey := None |}
             (single_typed (js "hi")) AppStore.initial hi_there usage_10_5
             eq_refl eq_refl eq_refl).
Defined.

(** C3. When a unit's stream delivers text but no usage-bearing terminal
    event, the unit's [UsageInfo] is estimated: [tokensIn] is the ceiling
    of a quarter of the prompt's length, [tokensOut] the ceiling of a
    quarter of the accumulated text's length, priced at the rate of the
    unit's model. *)
Theorem usage_is_estimated_without_server_usage :
  (forall (S : Type) (M : UsageStore S) (choice : Choice) (s : SingleChatPanel.State)
          (st : S) (stream : Stream StreamEvent),
      SingleChatPanel.canSend s = true ->
      usage_events (events stream) = [] ->
      truthy (streamed_text (events stream)) = true ->
      SingleChatPanel.usage (fst (SingleChatPanel.submit choice s st stream)) =
      Some {| tokensIn := number_of_nat (ceil_quarter (List.length (SingleChatPanel.prompt s)));
              tokensOut := number_of_nat (ceil_quarter (List.length (streamed_text (events stream))));
              cost := rate_cost
                        (number_of_nat (ceil_quarter (List.length (SingleChatPanel.prompt s))))
                        (number_of_nat (ceil_quarter (List.length (streamed_text (events stream)))))
                        (getPricing (modelId choice));
              estimated := true |})
  /\
  (forall (S : Type) (M : UsageStore S) (l r : Choice) (s : ComparePanel.State)
          (st : S) (stream : Stream StreamEvent),
      truthy (trim (ComparePanel.prompt s)) = true -> ComparePanel.busy s = false ->
      usage_events (side_events left (events stream)) = [] ->
      truthy (streamed_text (side_events left (events stream))) = true ->
      ComparePanel.leftUsage (fst (ComparePanel.submit l r s st stream)) =
      Some {| tokensIn := number_of_nat (ceil_quarter (List.length (ComparePanel.prompt s)));
              tokensOut :=
                number_of_nat
                  (ceil_quarter (List.length (streamed_text (side_events left (events stream)))));
              cost := rate_cost
                        (number_of_nat (ceil_quarter (List.length (ComparePanel.prompt s))))
                        (number_of_nat
                           (ceil_quarter
                              (List.length (streamed_text (side_events left (events stream))))))
                        (getPricing (modelId l));
              estimated := true |})
  /\
  (forall (S : Type) (M : UsageStore S) (l r : Choice) (s : ComparePanel.State)
          (st : S) (stream : Stream StreamEvent),
      truthy (trim (ComparePanel.prompt s)) = true -> ComparePanel.busy s = false ->
      usage_events (side_events right (events stream)) = [] ->
      truthy (streamed_text (side_events right (events stream))) = true ->
      ComparePanel.rightUsage (fst (ComparePanel.submit l r s st stream)) =
      Some {| tokensIn := number_of_nat (ceil_quarter (List.length (ComparePanel.prompt s)));
              tokensOut :=
                number_of_nat
                  (ceil_quarter (List.length (streamed_text (side_events right (events stream)))));
              cost := rate_cost
                        (number_of_nat (ceil_quarter (List.length (ComparePanel.prompt s))))
                        (number_of_nat
                           (ceil_quarter
                              (List.length (streamed_text (side_events right (events stream))))))
                        (getPricing (modelId r));
              estimated := true |})
  /\
  (forall n : nat, n <= 4 * ceil_quarter n < n + 4).
Proof.
  split; [|split; [|split]].
  - intros S M choice s st stream Hsend Hnone Htext.
    rewrite SingleFacts.single_submit_spec by exact Hsend. cbn [fst].
    destruct (SingleFacts.single_run_spec choice s st stream) as (Hu & _).
    rewrite Hu, unit_infos_none by assumption. reflexivity.
  - intros S M l r s st stream Hp Hb Hnone Htext.
    rewrite CompareFacts.compare_submit_spec by assumption. cbn [fst].
    destruct (CompareFacts.compare_run_spec l r s st stream) as (Hu & _).
    rewrite Hu, unit_infos_none by assumption. reflexivity.
  - intros S M l r s st stream Hp Hb Hnone Htext.
    rewrite CompareFacts.compare_submit_spec by assumption. cbn [fst].
    destruct (CompareFacts.compare_run_spec l r s st stream) as (_ & Hu & _).
    rewrite Hu, unit_infos_none by assumption. reflexivity.
  - exact ceil_quarter_spec.
Qed.

(** A prompt of two code units and seven code units of text: one token
    in, two out; in the compare streams the side without a terminal event
    streamed ["Hello"]. *)
Lemma usage_is_estimated_without_server_usage_witness :
  SingleChatPanel.usage
    (fst (SingleChatPanel.submit gpt4o (single_typed (js "hi")) AppStore.initial
            partial_then_error)) =
  Some {| tokensIn := 1%float; tokensOut := 2%float;
          cost := rate_cost 1%float 2%float (getPricing (js "openai/gpt-4o"));
          estimated := true |}
  /\
  ComparePanel.leftUsage
    (fst (ComparePanel.submit gpt4o haiku (compare_typed (js "hi")) AppStore.initial
            hi_there_right)) =
  Some {| tokensIn := 1%float; tokensOut := 2%float;
          cost := rate_cost 1%float 2%float (getPricing (js "openai/gpt-4o"));
          estimated := true |}
  /\
  ComparePanel.rightUsage
    (fst (ComparePanel.submit gpt4o haiku (compare_typed (js "hi")) AppStore.initial
            hi_there_left)) =
  Some {| tokensIn := 1%float; tokensOut := 2%float;
          cost := rate_cost 1%float 2%float (getPricing (js "anthropic/claude-3-haiku"));
          estimated := true |}.
Proof.
  split; [|split].
  - apply (proj1 usage_is_estimated_without_server_usage _ _ gpt4o
             (single_typed (js "hi")) AppStore.initial partial_then_error); reflexivity.
  - apply (proj1 (proj2 usage_is_estimated_without_server_usage) _ _ gpt4o haiku
             (compare_typed (js "hi")) AppStore.initial hi_there_right); reflexivity.
  - apply (proj1 (proj2 (proj2 usage_is_estimated_without_server_usage)) _ _ gpt4o haiku
             (compare_typed (js "hi")) AppStore.initial hi_there_left); reflexivity.
Defined.

(* ================================================================== *)
(** * Failed streams in the single panel *)
(* ================================================================== *)

(** C4, as stated, fails: after [delta("partial")] a transport failure
    puts the error message in place of the streamed text. *)
Lemma partial_text_replaced_by_error_message :
  let s := fst (SingleChatPanel.submit gpt4o (single_typed (js "hi")) AppStore.initial
                  partial_then_throw) in
  SingleChatPanel.response s = js "network error"
  /\ SingleChatPanel.response s <> js "partial".
Proof. vm_compute. split; [reflexivity | discriminate]. Qed.

(** C4, amended. In the single panel a stream that throws (the request,
    the transport or the parser failed) leaves the error message as the
    displayed response, whether or not text had streamed. A stream that
    ends without throwing after text has streamed, [error] events
    included, leaves the streamed text as the displayed response. *)
Theorem single_response_after_stream :
  forall (S : Type) (M : UsageStore S) (choice : Choice) (s : SingleChatPanel.State)
         (st : S) (stream : Stream StreamEvent),
    SingleChatPanel.canSend s = true ->
    (forall e, ending stream = Threw e ->
       SingleChatPanel.response (fst (SingleChatPanel.submit choice s st stream)) =
       error_text e (js "Stream failed"))
    /\
    (ending stream = Finished -> truthy (streamed_text (events stream)) = true ->
       SingleChatPanel.response (fst (SingleChatPanel.submit choice s st stream)) =
       streamed_text (events stream)).
Proof.
  intros S M choice s st stream Hsend.
  rewrite SingleFacts.single_submit_spec by exact Hsend. cbn [fst].
  destruct (SingleFacts.single_run_spec choice s st stream) as (_ & _ & Hr & _).
  rewrite Hr. split.
  - now intros e ->.
  - now intros ->.
Qed.

Lemma single_response_after_stream_witness :
  SingleChatPanel.response
    (fst (SingleChatPanel.submit gpt4o (single_typed (js "hi")) AppStore.initial
            partial_then_throw)) = js "network error"
  /\
  SingleChatPanel.response
    (fst (SingleChatPanel.submit gpt4o (single_typed (js "hi")) AppStore.initial
            partial_then_error)) = js "partial".
Proof.
  split.
  - exact (proj1 (single_response_after_stream _ gpt4o (single_typed (js "hi"))
                    AppStore.initial partial_then_throw eq_refl)
             (ErrorObject (js "network error")) eq_refl).
  - exact (proj2 (single_response_after_stream _ gpt4o (single_typed (js "hi"))
                    AppStore.initial partial_then_error eq_refl)
             eq_refl eq_refl).
Defined.

(** C6, as stated, fails: a stream that ends with an [error] event after
    [delta("partial")] gets an estimated [UsageInfo], and the session
    totals grow by it. *)
Lemma failed_stream_with_text_is_accounted :
  let r := SingleChatPanel.submit gpt4o (single_typed (js "hi")) AppStore.initial
             partial_then_error in
  SingleChatPanel.usage (fst r) =
    Some {| tokensIn := 1%float; tokensOut := 2%float;
            cost := rate_cost 1%float 2%float (getPricing (js "openai/gpt-4o"));
            estimated := true |}
  /\ PrimFloat.ltb (AppStore.sessionTokensIn AppStore.initial)
       (AppStore.sessionTokensIn (snd r)) = true
  /\ PrimFloat.ltb (AppStore.sessionTokensOut AppStore.initial)
       (AppStore.sessionTokensOut (snd r)) = true
  /\ PrimFloat.ltb (AppStore.sessionCost AppStore.initial)
       (AppStore.sessionCost (snd r)) = true.
Proof. vm_compute. repeat split; reflexivity. Qed.

(** C6, amended. A single-mode stream without a usage-bearing terminal
    event, however it ends, is left without usage accounting exactly when
    no text had streamed: then no [UsageInfo] is produced and the store is
    unchanged. When text had streamed, the estimated [UsageInfo] is
    produced and added to the session totals. *)
Theorem failed_stream_accounting :
  forall (S : Type) (M : UsageStore S) (choice : Choice) (s : SingleChatPanel.State)
         (st : S) (stream : Stream StreamEvent),
    SingleChatPanel.canSend s = true ->
    usage_events (events stream) = [] ->
    let r := SingleChatPanel.submit choice s st stream in
    let acc := streamed_text (events stream) in
    let info := estimated_usage (SingleChatPanel.prompt s) acc (modelId choice) in
    (acc = [] -> SingleChatPanel.usage (fst r) = None /\ snd r = st)
    /\ (acc <> [] ->
        SingleChatPanel.usage (fst r) = Some info
        /\ snd r = addUsage (tokensIn info) (tokensOut info) (cost info) st).
Proof.
  intros S M choice s st stream Hsend Hnone r acc info. subst r acc info.
  rewrite SingleFacts.single_submit_spec by exact Hsend. cbn [fst snd].
  destruct (SingleFacts.single_run_spec choice s st stream) as (Hu & Hs & _).
  rewrite Hu, Hs. unfold unit_infos, fallback_infos. rewrite Hnone.
  split.
  - intros ->. split; reflexivity.
  - intros Hne. destruct (streamed_text (events stream)); [contradiction|].
    split; reflexivity.
Qed.

Lemma failed_stream_accounting_witness :
  (let r := SingleChatPanel.submit gpt4o (single_typed (js "hi")) AppStore.initial error_only in
   SingleChatPanel.usage (fst r) = None /\ snd r = AppStore.initial)
  /\
  (let r := SingleChatPanel.submit gpt4o (single_typed (js "hi")) AppStore.initial
              partial_then_error in
   let info := estimated_usage (js "hi") (js "partial") (js "openai/gpt-4o") in
   SingleChatPanel.usage (fst r) = Some info
   /\ snd r = AppStore.addUsage (tokensIn info) (tokensOut info) (cost info) AppStore.initial).
Proof.
  split.
  - apply (proj1 (failed_stream_accounting _ gpt4o (single_typed (js "hi")) AppStore.initial
                    error_only eq_refl eq_refl)); reflexivity.
  - apply (proj2 (failed_stream_accounting _ gpt4o (single_typed (js "hi")) AppStore.initial
                    partial_then_error eq_refl eq_refl)); discriminate.
Defined.

(* ================================================================== *)
(** * Events without a side in the compare panel *)
(* ================================================================== *)

(** C5, as stated, fails: an [error] event without a side puts its
    message on both sides. *)
Lemma untagged_error_shown_on_both_sides :
  let r := ComparePanel.begin (compare_typed (js "hi")) AppStore.initial in
  let q := ComparePanel.loop_body gpt4o haiku r (ev_error (Some (js "boom")) None) in
  ComparePanel.leftOutput (ComparePanel.state r) = []
  /\ ComparePanel.rightOutput (ComparePanel.state r) = []
  /\ ComparePanel.leftOutput (ComparePanel.state q) = js "Error: boom"
  /\ ComparePanel.rightOutput (ComparePanel.state q) = js "Error: boom".
Proof. vm_compute. repeat split; reflexivity. Qed.

(** C5, amended. In the compare panel a [delta], [done] or [complete]
    event without a side changes nothing. An [error] event without a side
    is applied to both sides: each side whose output is still empty shows
    [Error: <message>], a side that already shows text keeps it; neither
    side's accumulated text or usage, nor the store, changes. *)
Theorem untagged_events_in_compare :
  forall (S : Type) (M : UsageStore S) (l r : Choice) (q : @ComparePanel.Run S),
    (forall t, ComparePanel.loop_body l r q (ev_delta t None) = q)
    /\ (forall u, ComparePanel.loop_body l r q (ev_done None u) = q)
    /\ (forall u, ComparePanel.loop_body l r q (ev_complete None u) = q)
    /\ (forall m,
         let q' := ComparePanel.loop_body l r q (ev_error m None) in
         let shown := js "Error: " ++ or_else (nullish m []) (js "Stream failed") in
         ComparePanel.leftOutput (ComparePanel.state q') =
           or_else (ComparePanel.leftOutput (ComparePanel.state q)) shown
         /\ ComparePanel.rightOutput (ComparePanel.state q') =
              or_else (ComparePanel.rightOutput (ComparePanel.state q)) shown
         /\ ComparePanel.leftAccRef (ComparePanel.state q') =
              ComparePanel.leftAccRef (ComparePanel.state q)
         /\ ComparePanel.rightAccRef (ComparePanel.state q') =
              ComparePanel.rightAccRef (ComparePanel.state q)
         /\ ComparePanel.leftUsage (ComparePanel.state q') =
              ComparePanel.leftUsage (ComparePanel.state q)
         /\ ComparePanel.rightUsage (ComparePanel.state q') =
              ComparePanel.rightUsage (ComparePanel.state q)
         /\ ComparePanel.gotLeftUsage q' = ComparePanel.gotLeftUsage q
         /\ ComparePanel.gotRightUsage q' = ComparePanel.gotRightUsage q
         /\ ComparePanel.store q' = ComparePanel.store q).
Proof.
  intros S M l r q. repeat split.
  - intros [t|]; cbn; [destruct (truthy t)|]; reflexivity.
  - intros [u|]; reflexivity.
  - intros [u|]; reflexivity.
Qed.

(* ================================================================== *)
(** * How often a stream updates the session totals *)
(* ================================================================== *)

Lemma log_add_infos (infos : list UsageInfo) (log : UsageLog) :
  fold_left (fun st i => add_info i st) infos log = log ++ map call_of infos.
Proof.
  revert log. induction infos as [|i infos IH]; intros log; cbn [fold_left map].
  - now rewrite app_nil_r.
  - rewrite IH. unfold add_info, addUsage, UsageLog_UsageStore, call_of.
    now rewrite <- app_assoc.
Qed.

Lemma fallback_infos_reported reported p acc model :
  reported <> [] -> fallback_infos reported p acc model = [].
Proof. destruct reported; [contradiction | reflexivity]. Qed.

Lemma fallback_infos_length reported p acc model :
  List.length (fallback_infos reported p acc model) <= 1.
Proof.
  unfold fallback_infos. destruct reported; [destruct (truthy acc)|]; cbn; lia.
Qed.

(** Every usage-bearing terminal event with a side is counted once. *)
Lemma sided_infos_length l r evs :
  List.length (sided_infos l r evs) =
  List.length (usage_events (side_events left evs))
  + List.length (usage_events (side_events right evs)).
Proof.
  induction evs as [|ev evs IH]; [reflexivity|].
  rewrite sided_infos_cons, length_app, IH.
  rewrite !CompareFacts.side_usage_cons.
  destruct ev as [|t [[|]|]|[[|]|] [u|]|[[|]|] [u|]|m [[|]|]]; cbn; lia.
Qed.

(** C7, as stated, fails: a stream with two usage-bearing terminal events
    calls [addUsage] twice, and the session totals hold the usage of
    both. *)
Lemma two_terminal_events_update_twice :
  List.length
    (snd (SingleChatPanel.submit gpt4o (single_typed (js "hi")) ([] : UsageLog)
            done_then_complete)) = 2
  /\
  AppStore.sessionTokensIn
    (snd (SingleChatPanel.submit gpt4o (single_typed (js "hi")) AppStore.initial
            done_then_complete)) = 20%float.
Proof. vm_compute. split; reflexivity. Qed.

(** C7, amended. A stream updates the session totals once for each
    usage-bearing terminal event of a unit, and at most once more per
    unit at its end, by the estimate; the estimate is made only for a
    unit that saw no usage-bearing terminal event, so no unit contributes
    both server-reported and estimated usage, and a unit with at most one
    usage-bearing terminal event updates the totals at most once. *)
Theorem usage_updates_per_unit :
  (forall (S : Type) (M : UsageStore S) (choice : Choice) (s : SingleChatPanel.State)
          (st : S) (stream : Stream StreamEvent),
      SingleChatPanel.canSend s = true ->
      let reported := usage_events (events stream) in
      let fb := fallback_infos reported (SingleChatPanel.prompt s)
                  (streamed_text (events stream)) (modelId choice) in
      snd (SingleChatPanel.submit choice s st stream) =
        fold_left (fun st i => addUsage (tokensIn i) (tokensOut i) (cost i) st)
          (map (fun u => server_usage u (modelId choice)) reported ++ fb) st
      /\ List.length (snd (SingleChatPanel.submit choice s ([] : UsageLog) stream)) =
           List.length reported + List.length fb
      /\ (reported <> [] -> fb = [])
      /\ List.length fb <= 1
      /\ (List.length reported <= 1 ->
          List.length (snd (SingleChatPanel.submit choice s ([] : UsageLog) stream)) <= 1))
  /\
  (forall (S : Type) (M : UsageStore S) (l r : Choice) (s : ComparePanel.State)
          (st : S) (stream : Stream StreamEvent),
      truthy (trim (ComparePanel.prompt s)) = true -> ComparePanel.busy s = false ->
      let lefts := side_events left (events stream) in
      let rights := side_events right (events stream) in
      let fbl := fallback_infos (usage_events lefts) (ComparePanel.prompt s)
                   (streamed_text lefts) (modelId l) in
      let fbr := fallback_infos (usage_events rights) (ComparePanel.prompt s)
                   (streamed_text rights) (modelId r) in
      snd (ComparePanel.submit l r s st stream) =
        fold_left (fun st i => addUsage (tokensIn i) (tokensOut i) (cost i) st)
          (sided_infos l r (events stream) ++ fbl ++ fbr) st
      /\ List.length (snd (ComparePanel.submit l r s ([] : UsageLog) stream)) =
           List.length (usage_events lefts) + List.length (usage_events rights)
           + List.length fbl + List.length fbr
      /\ (usage_events lefts <> [] -> fbl = [])
      /\ (usage_events rights <> [] -> fbr = [])
      /\ List.length fbl <= 1
      /\ List.length fbr <= 1
      /\ (List.length (usage_events lefts) <= 1 -> List.length (usage_events rights) <= 1 ->
          List.length (snd (ComparePanel.submit l r s ([] : UsageLog) stream)) <= 2)).
Proof.
  split.
  - intros S M choice s st stream Hsend reported fb. subst reported fb.
    rewrite !SingleFacts.single_submit_spec by exact Hsend. cbn [snd].
    destruct (SingleFacts.single_run_spec choice s st stream) as (_ & Hs & _).
    destruct (SingleFacts.single_run_spec choice s ([] : UsageLog) stream) as (_ & Hl & _).
    rewrite Hs, Hl, log_add_infos. unfold unit_infos.
    cbn [app]. rewrite length_map, length_app, length_map.
    pose proof (fallback_infos_length (usage_events (events stream))
                  (SingleChatPanel.prompt s) (streamed_text (events stream))
                  (modelId choice)) as Hfb.
    split; [reflexivity|]. split; [reflexivity|].
    split; [now apply fallback_infos_reported|].
    split; [exact Hfb|].
    intros Hone.
    destruct (usage_events (events stream)) as [|u [|u' us]]; cbn in *; lia.
  - intros S M l r s st stream Hp Hb lefts rights fbl fbr. subst lefts rights fbl fbr.
    rewrite !CompareFacts.compare_submit_spec by assumption. cbn [snd].
    destruct (CompareFacts.compare_run_spec l r s st stream) as (_ & _ & Hs).
    destruct (CompareFacts.compare_run_spec l r s ([] : UsageLog) stream) as (_ & _ & Hl).
    rewrite Hs, Hl, log_add_infos.
    cbn [app]. rewrite length_map, !length_app, sided_infos_length.
    set (lefts := side_events left (events stream)).
    set (rights := side_events right (events stream)).
    pose proof (fallback_infos_length (usage_events lefts) (ComparePanel.prompt s)
                  (streamed_text lefts) (modelId l)) as Hfbl.
    pose proof (fallback_infos_length (usage_events rights) (ComparePanel.prompt s)
                  (streamed_text rights) (modelId r)) as Hfbr.
    split; [reflexivity|]. split; [lia|].
    split; [now apply fallback_infos_reported|].
    split; [now apply fallback_infos_reported|].
    split; [exact Hfbl|]. split; [exact Hfbr|].
    intros Hl1 Hr1.
    destruct (usage_events lefts) as [|u [|u' us]], (usage_events rights) as [|v [|v' vs]];
      cbn in *; lia.
Qed.

(** The scenario of the specification: one call, with the server's usage. *)
Lemma usage_updates_per_unit_witness :
  snd (SingleChatPanel.submit gpt4o (single_typed (js "hi")) ([] : UsageLog) hi_there) =
    [call_of (server_usage usage_10_5 (js "openai/gpt-4o"))]
  /\
  snd (ComparePanel.submit gpt4o haiku (compare_typed (js "hi")) ([] : UsageLog) hi_there_left) =
    [call_of (server_usage usage_10_5 (js "openai/gpt-4o"));
     call_of (estimated_usage (js "hi") (js "Hello") (js "anthropic/claude-3-haiku"))].
Proof.
  split.
  - exact (proj1 (proj1 usage_updates_per_unit _ _ gpt4o (single_typed (js "hi"))
                    ([] : UsageLog) hi_there eq_refl)).
  - exact (proj1 (proj2 usage_updates_per_unit _ _ gpt4o haiku (compare_typed (js "hi"))
                    ([] : UsageLog) hi_there_left eq_refl eq_refl)).
Defined.

(* ================================================================== *)
(** * Properties of the store's agent records *)
(* ================================================================== *)

Lemma eqb_refl (a : jsstring) : JS.eqb a a = true.
Proof. induction a as [|x a IH]; cbn; [reflexivity|]. now rewrite N.eqb_refl. Qed.

Lemma eqb_eq (a b : jsstring) : JS.eqb a b = true <-> a = b.
Proof.
  split; [|intros ->; apply eqb_refl].
  revert b. induction a as [|x a IH]; intros [|y b]; cbn; try discriminate; [reflexivity|].
  intros H. apply andb_prop in H as [Hx Hab].
  apply N.eqb_eq in Hx. now rewrite Hx, (IH b Hab).
Qed.

Lemma eqb_sym (a b : jsstring) : JS.eqb a b = JS.eqb b a.
Proof.
  destruct (JS.eqb a b) eqn:Hab.
  - apply eqb_eq in Hab. subst. symmetry. apply eqb_refl.
  - destruct (JS.eqb b a) eqn:Hba; [|reflexivity].
    apply eqb_eq in Hba. subst. now rewrite eqb_refl in Hab.
Qed.

Module StoreFacts.

Import AppStore.

Section Objects.

Variable A : Type.
Implicit Types (o : list (jsstring * A)) (k : jsstring) (v : A).

Lemma get_replace_same k v o :
  get (replace k v o) k = match get o k with Some _ => Some v | None => None end.
Proof.
  induction o as [|[k' v'] o IH]; [reflexivity|].
  cbn [replace get own_property]. destruct (JS.eqb k' k) eqn:Hk; cbn [own_property].
  - now rewrite Hk.
  - rewrite Hk. exact IH.
Qed.

Lemma get_replace_other k k' v o :
  JS.eqb k k' = false -> get (replace k v o) k' = get o k'.
Proof.
  intros Hne. induction o as [|[k0 v0] o IH]; [reflexivity|].
  cbn [replace get own_property]. destruct (JS.eqb k0 k) eqn:Hk; cbn [own_property].
  - apply eqb_eq in Hk. subst k0. now rewrite Hne.
  - destruct (JS.eqb k0 k'); [reflexivity | exact IH].
Qed.

Lemma get_add_key_same k v o : get o k = None -> get (add_key k v o) k = Some v.
Proof.
  induction o as [|[k' v'] o IH]; cbn [add_key get own_property].
  - now rewrite eqb_refl.
  - destruct (JS.eqb k' k) eqn:Hk; [discriminate|]. intros Hnone.
    destruct (enumerated_before k k'); cbn [own_property].
    + now rewrite eqb_refl.
    + rewrite Hk. exact (IH Hnone).
Qed.

Lemma get_add_key_other k k' v o :
  JS.eqb k k' = false -> get (add_key k v o) k' = get o k'.
Proof.
  intros Hne. induction o as [|[k0 v0] o IH]; cbn [add_key get own_property].
  - now rewrite Hne.
  - destruct (enumerated_before k k0); cbn [own_property].
    + now rewrite Hne.
    + destruct (JS.eqb k0 k'); [reflexivity | exact IH].
Qed.

Lemma get_set_same k v o : get (set k v o) k = Some v.
Proof.
  unfold set. destruct (get o k) eqn:Hg.
  - now rewrite get_replace_same, Hg.
  - now apply get_add_key_same.
Qed.

Lemma get_set_other k k' v o : JS.eqb k k' = false -> get (set k v o) k' = get o k'.
Proof.
  intros Hne. unfold set. destruct (get o k).
  - now apply get_replace_other.
  - now apply get_add_key_other.
Qed.

Lemma replace_replace k v v' o : replace k v (replace k v' o) = replace k v o.
Proof.
  induction o as [|[k' v0] o IH]; [reflexivity|].
  cbn [replace]. destruct (JS.eqb k' k) eqn:Hk; cbn [replace]; rewrite Hk.
  - reflexivity.
  - now rewrite IH.
Qed.

Lemma replace_add_key k v v' o :
  get o k = None -> replace k v (add_key k v' o) = add_key k v o.
Proof.
  induction o as [|[k' v0] o IH]; cbn [add_key get own_property replace].
  - now rewrite eqb_refl.
  - destruct (JS.eqb k' k) eqn:Hk; [discriminate|]. intros Hnone.
    destruct (enumerated_before k k'); cbn [replace].
    + now rewrite eqb_refl.
    + rewrite Hk. now rewrite (IH Hnone).
Qed.

(** Writing a key twice is writing it once with the later value. *)
Lemma set_set k v v' o : set k v (set k v' o) = set k v o.
Proof.
  unfold set at 1. rewrite get_set_same.
  unfold set. destruct (get o k) eqn:Hg.
  - apply replace_replace.
  - now apply replace_add_key.
Qed.

End Objects.

Lemma merge_merge (a : AgentOutput) (u : AgentUpdate) : merge (merge a u) u = merge a u.
Proof.
  destruct a, u as [[?|] [?|] [?|] [?|] [?|]]; reflexivity.
Qed.

Lemma agentOutputs_update agent u st :
  agentOutputs (updateAgentOutput agent u st) =
  set agent (merge (nullish (get (agentOutputs st) agent) default_output) u) (agentOutputs st).
Proof. reflexivity. Qed.

Lemma get_update_same agent u st :
  get (agentOutputs (updateAgentOutput agent u st)) agent =
  Some (merge (nullish (get (agentOutputs st) agent) default_output) u).
Proof. rewrite agentOutputs_update. apply get_set_same. Qed.

Lemma get_update_other agent agent' u st :
  JS.eqb agent agent' = false ->
  get (agentOutputs (updateAgentOutput agent u st)) agent' = get (agentOutputs st) agent'.
Proof. intros Hne. rewrite agentOutputs_update. now apply get_set_other. Qed.

(** [updateAgentOutput] with the same update is idempotent. *)
Lemma update_update agent u st :
  updateAgentOutput agent u (updateAgentOutput agent u st) = updateAgentOutput agent u st.
Proof.
  unfold updateAgentOutput at 1. rewrite get_update_same. cbn [nullish].
  rewrite merge_merge. unfold updateAgentOutput, with_agentOutputs; cbn.
  now rewrite set_set.
Qed.

Lemma crewTotalCost_update agent u st :
  crewTotalCost (updateAgentOutput agent u st) = crewTotalCost st.
Proof. reflexivity. Qed.

End StoreFacts.

(* ================================================================== *)
(** * Properties of the crew panel and its dashboard *)
(* ================================================================== *)

Module CrewFacts.

Import AppStore CrewPanel CrewDashboard.

Lemma crewTotalCost_resets agents st :
  crewTotalCost (fold_left (fun st a => updateAgentOutput a reset_update st) agents st) =
  crewTotalCost st.
Proof.
  revert st. induction agents as [|a agents IH]; intros st; [reflexivity|].
  cbn [fold_left]. now rewrite IH.
Qed.

Lemma crewTotalCost_kept st ev :
  keeps_total ev = true -> crewTotalCost (on_event st ev) = crewTotalCost st.
Proof.
  destruct ev as [sid agents|sub|a sid m|a sid t|a sid c tk|t|[c|]|m]; cbn [on_event];
    intros Hk; try reflexivity.
  - apply crewTotalCost_resets.
  - now destruct (truthy_opt a).
  - now destruct (truthy_opt a && truthy_opt t).
  - now destruct (truthy_opt a).
  - now destruct (truthy_opt t).
  - discriminate.
Qed.

Lemma crewTotalCost_kept_all evs : forall st,
  forallb keeps_total evs = true ->
  crewTotalCost (fold_left on_event evs st) = crewTotalCost st.
Proof.
  induction evs as [|ev evs IH]; intros st Hk; [reflexivity|].
  cbn [forallb] in Hk. apply andb_prop in Hk as [Hev Hevs].
  cbn [fold_left]. now rewrite IH, crewTotalCost_kept.
Qed.

Lemma text_of_update_same a u st :
  text_of (updateAgentOutput a u st) a = override (text_of st a) (u_text u).
Proof.
  unfold text_of. rewrite StoreFacts.get_update_same.
  now destruct (get (agentOutputs st) a).
Qed.

Lemma text_of_update_other a b u st :
  JS.eqb a b = false -> text_of (updateAgentOutput a u st) b = text_of st b.
Proof. intros Hne. unfold text_of. now rewrite StoreFacts.get_update_other. Qed.

Lemma text_of_resets a agents : forall st,
  existsb (JS.eqb a) agents = true \/ text_of st a = [] ->
  text_of (fold_left (fun st b => updateAgentOutput b reset_update st) agents st) a = [].
Proof.
  induction agents as [|b agents IH]; intros st H; cbn [fold_left].
  - destruct H as [H|H]; [discriminate | exact H].
  - apply IH. cbn [existsb] in H.
    destruct (JS.eqb a b) eqn:Hab.
    + right. apply eqb_eq in Hab. subst b. now rewrite text_of_update_same.
    + rewrite text_of_update_other by now rewrite eqb_sym.
      exact H.
Qed.

Lemma text_of_not_reset a agents : forall st,
  existsb (JS.eqb a) agents = false ->
  text_of (fold_left (fun st b => updateAgentOutput b reset_update st) agents st) a =
  text_of st a.
Proof.
  induction agents as [|b agents IH]; intros st H; cbn [fold_left]; [reflexivity|].
  cbn [existsb] in H. apply orb_false_elim in H as [Hab Hrest].
  rewrite IH by exact Hrest.
  apply text_of_update_other. now rewrite eqb_sym.
Qed.

Lemma tokens_of_update a b u st :
  u_tokens u = None -> tokens_of (updateAgentOutput a u st) b = tokens_of st b.
Proof.
  intros Hu. unfold tokens_of. destruct (JS.eqb a b) eqn:Hab.
  - apply eqb_eq in Hab. subst b. rewrite StoreFacts.get_update_same.
    cbn [merge tokens]. rewrite Hu.
    now destruct (get (agentOutputs st) a).
  - now rewrite StoreFacts.get_update_other.
Qed.

Lemma cost_of_update a b u st :
  u_cost u = None -> cost_of (updateAgentOutput a u st) b = cost_of st b.
Proof.
  intros Hu. unfold cost_of. destruct (JS.eqb a b) eqn:Hab.
  - apply eqb_eq in Hab. subst b. rewrite StoreFacts.get_update_same.
    cbn [merge cost]. rewrite Hu.
    now destruct (get (agentOutputs st) a).
  - now rewrite StoreFacts.get_update_other.
Qed.

End CrewFacts.

(** C8, as stated, fails: when [crew_done] reports a total of 0 the
    dashboard shows the sum of the agents' costs instead. *)
Lemma zero_crew_total_is_not_shown :
  let st := snd (CrewPanel.handleSubmit (crew_typed (js "plan it")) AppStore.initial
                   (planner_stream 0%float)) in
  AppStore.crewTotalCost st = 0%float
  /\ CrewDashboard.showsTotal st = true
  /\ CrewDashboard.totalCost st = 0.02%float
  /\ PrimFloat.eqb (CrewDashboard.totalCost st) 0%float = false.
Proof. vm_compute. repeat split; reflexivity. Qed.

(** C8, amended. Once a [crew_done] event with a [totalCost] above zero
    has arrived, the dashboard's total cost is that value, whatever the
    agents' costs are, and stays so through every later event that is not
    another [crew_done] with a total. A [totalCost] that is not above zero
    leaves the dashboard on the sum of the agents' costs. *)
Theorem crew_done_total_is_preferred :
  forall (st : AppStore.AppState) (c : number),
    (PrimFloat.ltb 0 c = true ->
     forall evs : list CrewStreamEvent,
       forallb keeps_total evs = true ->
       CrewDashboard.totalCost
         (fold_left CrewPanel.on_event evs (CrewPanel.on_event st (crew_done (Some c)))) = c)
    /\
    (PrimFloat.ltb 0 c = false ->
     CrewDashboard.totalCost (CrewPanel.on_event st (crew_done (Some c))) =
     CrewDashboard.summedCost st).
Proof.
  intros st c. split.
  - intros Hpos evs Hk. unfold CrewDashboard.totalCost.
    rewrite CrewFacts.crewTotalCost_kept_all by exact Hk.
    cbn [CrewPanel.on_event AppStore.setCrewTotalCost AppStore.crewTotalCost].
    now rewrite Hpos.
  - intros Hneg. unfold CrewDashboard.totalCost.
    cbn [CrewPanel.on_event AppStore.setCrewTotalCost AppStore.crewTotalCost].
    now rewrite Hneg.
Qed.

(** The scenario of the specification, with a synthesis after it. *)
Lemma crew_done_total_is_preferred_witness :
  CrewDashboard.totalCost
    (fold_left CrewPanel.on_event [synthesis_delta (Some (js "summary"))]
       (CrewPanel.on_event (fold_left CrewPanel.on_event planner_events AppStore.initial)
          (crew_done (Some 0.02%float)))) = 0.02%float
  /\
  CrewDashboard.totalCost
    (CrewPanel.on_event (fold_left CrewPanel.on_event planner_events AppStore.initial)
       (crew_done (Some 0%float))) =
  CrewDashboard.summedCost (fold_left CrewPanel.on_event planner_events AppStore.initial).
Proof.
  split.
  - apply (proj1 (crew_done_total_is_preferred
                    (fold_left CrewPanel.on_event planner_events AppStore.initial)
                    0.02%float)); reflexivity.
  - apply (proj2 (crew_done_total_is_preferred
                    (fold_left CrewPanel.on_event planner_events AppStore.initial)
                    0%float)); reflexivity.
Defined.

(** C9, as stated, fails: a [crew_start] that lists an agent after its
    text has been appended empties that text. *)
Lemma crew_start_empties_streamed_text :
  let st1 := CrewPanel.on_event (AppStore.resetCrewState AppStore.initial)
               (agent_delta (Some (js "planner")) None (Some (js "step 1"))) in
  let st2 := snd (CrewPanel.handleSubmit (crew_typed (js "plan it")) AppStore.initial
                    late_crew_start) in
  text_of st1 (js "planner") = js "step 1"
  /\ st2 = CrewPanel.on_event st1 (crew_start None (Some [js "planner"]))
  /\ text_of st2 (js "planner") = [].
Proof. vm_compute. repeat split; reflexivity. Qed.

(** C9, amended. In crew mode an [agent_delta] appends to the agent's
    text whether or not the agent has an entry yet, so no text is lost for
    want of a [crew_start]; a [crew_start] empties the text of every agent
    it lists and leaves the text of the agents it does not list
    unchanged. *)
Theorem crew_text_under_events :
  forall (st : AppStore.AppState) (a : jsstring),
    (forall sid t,
        truthy a = true -> truthy t = true ->
        text_of (CrewPanel.on_event st (agent_delta (Some a) sid (Some t))) a =
        text_of st a ++ t)
    /\
    (forall sid agents,
        existsb (JS.eqb a) agents = true ->
        text_of (CrewPanel.on_event st (crew_start sid (Some agents))) a = [])
    /\
    (forall sid agents,
        existsb (JS.eqb a) (nullish agents []) = false ->
        text_of (CrewPanel.on_event st (crew_start sid agents)) a = text_of st a).
Proof.
  intros st a. split; [|split].
  - intros sid t Ha Ht. cbn [CrewPanel.on_event truthy_opt nullish].
    rewrite Ha, Ht. cbn [andb].
    rewrite CrewFacts.text_of_update_same. cbn [AppStore.u_text AppStore.override].
    unfold text_of.
    destruct (AppStore.get (AppStore.agentOutputs st) a); [|reflexivity].
    now rewrite or_else_nil.
  - intros sid agents Hin. cbn [CrewPanel.on_event nullish].
    apply CrewFacts.text_of_resets. now left.
  - intros sid agents Hout. cbn [CrewPanel.on_event].
    now apply CrewFacts.text_of_not_reset.
Qed.

Lemma crew_text_under_events_witness :
  text_of
    (CrewPanel.on_event AppStore.initial
       (agent_delta (Some (js "planner")) None (Some (js "step 1"))))
    (js "planner") = js "step 1"
  /\
  text_of
    (CrewPanel.on_event
       (CrewPanel.on_event AppStore.initial
          (agent_delta (Some (js "planner")) None (Some (js "step 1"))))
       (crew_start None (Some [js "coder"; js "planner"])))
    (js "planner") = []
  /\
  text_of
    (CrewPanel.on_event
       (CrewPanel.on_event AppStore.initial
          (agent_delta (Some (js "planner")) None (Some (js "step 1"))))
       (crew_start None (Some [js "coder"])))
    (js "planner") = js "step 1".
Proof.
  split; [|split].
  - apply (proj1 (crew_text_under_events AppStore.initial (js "planner")) None (js "step 1"));
      reflexivity.
  - apply (proj1 (proj2 (crew_text_under_events
                           (CrewPanel.on_event AppStore.initial
                              (agent_delta (Some (js "planner")) None (Some (js "step 1"))))
                           (js "planner")))); reflexivity.
  - rewrite (proj2 (proj2 (crew_text_under_events
                             (CrewPanel.on_event AppStore.initial
                                (agent_delta (Some (js "planner")) None (Some (js "step 1"))))
                             (js "planner"))) None (Some [js "coder"]) eq_refl).
    reflexivity.
Defined.

(** C10. An [agent_done] event that lacks [tokens] (or [cost]) leaves the
    value an earlier event recorded for that field: the update merges
    field by field. The fields it does carry are recorded. Applying the
    same [agent_done] twice gives the store that applying it once gives;
    in particular [agent_done{cost: 5}] applied twice leaves every
    agent's tokens as they were. *)
Theorem agent_done_merges_fields :
  forall (st : AppStore.AppState) (agent sid : option jsstring),
    (forall c a,
        tokens_of (CrewPanel.on_event st (agent_done agent sid c None)) a = tokens_of st a)
    /\ (forall tk a,
        cost_of (CrewPanel.on_event st (agent_done agent sid None tk)) a = cost_of st a)
    /\ (forall c tk,
        CrewPanel.on_event (CrewPanel.on_event st (agent_done agent sid c tk))
          (agent_done agent sid c tk) =
        CrewPanel.on_event st (agent_done agent sid c tk))
    /\ (forall a,
        tokens_of
          (CrewPanel.on_event (CrewPanel.on_event st (agent_done agent sid (Some 5%float) None))
             (agent_done agent sid (Some 5%float) None)) a = tokens_of st a)
    /\ (forall name c tk,
        agent = Some name -> truthy name = true ->
        cost_of (CrewPanel.on_event st (agent_done agent sid (Some c) tk)) name = Some c)
    /\ (forall name c tk,
        agent = Some name -> truthy name = true ->
        tokens_of (CrewPanel.on_event st (agent_done agent sid c (Some tk))) name = Some tk).
Proof.
  intros st agent sid.
  assert (Htk : forall st' c a,
             tokens_of (CrewPanel.on_event st' (agent_done agent sid c None)) a =
             tokens_of st' a).
  { intros st' c a. cbn [CrewPanel.on_event].
    destruct (truthy_opt agent); [|reflexivity].
    now apply CrewFacts.tokens_of_update. }
  split; [|split; [|split; [|split; [|split]]]].
  - apply Htk.
  - intros tk a. cbn [CrewPanel.on_event].
    destruct (truthy_opt agent); [|reflexivity].
    now apply CrewFacts.cost_of_update.
  - intros c tk. cbn [CrewPanel.on_event].
    destruct (truthy_opt agent); [|reflexivity].
    apply StoreFacts.update_update.
  - intros a. now rewrite !Htk.
  - intros name c tk -> Hname. cbn [CrewPanel.on_event truthy_opt nullish]. rewrite Hname.
    unfold cost_of. now rewrite StoreFacts.get_update_same.
  - intros name c tk -> Hname. cbn [CrewPanel.on_event truthy_opt nullish]. rewrite Hname.
    unfold tokens_of. now rewrite StoreFacts.get_update_same.
Qed.

(** The planner of the scenario, done with 40 tokens, then done again
    twice with a cost only. *)
Lemma agent_done_merges_fields_witness :
  let st := fold_left CrewPanel.on_event planner_events AppStore.initial in
  let ev := agent_done (Some (js "planner")) None (Some 5%float) None in
  tokens_of st (js "planner") = Some 40%float
  /\ tokens_of (CrewPanel.on_event (CrewPanel.on_event st ev) ev) (js "planner") =
       Some 40%float
  /\ cost_of (CrewPanel.on_event st ev) (js "planner") = Some 5%float.
Proof.
  cbv zeta. split; [reflexivity|]. split.
  - rewrite (proj1 (proj2 (proj2 (proj2
               (agent_done_merges_fields
                  (fold_left CrewPanel.on_event planner_events AppStore.initial)
                  (Some (js "planner")) None)))) (js "planner")).
    reflexivity.
  - apply (proj1 (proj2 (proj2 (proj2 (proj2
             (agent_done_merges_fields
                (fold_left CrewPanel.on_event planner_events AppStore.initial)
                (Some (js "planner")) None))))) (js "planner") 5%float None eq_refl eq_refl).
Defined.

(* ================================================================== *)
(** * Further properties of the frame decoder *)
(* ================================================================== *)








Lemma split_no_newline s : no_newline s = true -> split_nn s = [s].
Proof.
  induction s as [|c|c c' rest IH1 IH2] using jsstring_ind2; try reflexivity.
  intros H. cbn [no_newline forallb] in H. apply andb_prop in H as [Hc H].
  rewrite split_nn_cons2. apply negb_true_iff in Hc. rewrite Hc. cbn [andb].
  now rewrite IH2.
Qed.

Lemma split_frame f rest :
  no_newline f = true -> split_nn (f ++ 10%N :: 10%N :: rest) = f :: split_nn rest.
Proof.
  induction f as [|c f IH]; intros H; [reflexivity|].
  cbn [no_newline forallb] in H. apply andb_prop in H as [Hc H].
  apply negb_true_iff in Hc.
  destruct f as [|c' f].
  - cbn [app]. rewrite split_nn_cons2, Hc. cbn [andb].
    change (10%N :: 10%N :: rest) with ([] ++ 10%N :: 10%N :: rest).
    now rewrite IH.
  - change ((c :: c' :: f) ++ 10%N :: 10%N :: rest)
      with (c :: c' :: (f ++ 10%N :: 10%N :: rest)).
    rewrite split_nn_cons2, Hc. cbn [andb].
    change (c' :: f ++ 10%N :: 10%N :: rest) with ((c' :: f) ++ 10%N :: 10%N :: rest).
    now rewrite IH.
Qed.

Lemma split_frames frames tail :
  forallb no_newline frames = true ->
  split_nn (flat_map (fun f => f ++ [10%N; 10%N]) frames ++ tail) = frames ++ split_nn tail.
Proof.
  induction frames as [|f frames IH]; intros H; [reflexivity|].
  cbn [forallb] in H. apply andb_prop in H as [Hf H].
  cbn [flat_map]. rewrite <- !app_assoc. cbn [app].
  rewrite split_frame by exact Hf. now rewrite IH.
Qed.

(** ASCII bytes decode to themselves when no sequence is pending. *)
Lemma decode_ascii value : forall d,
  TextDecoder.bytes_needed (TextDecoder.machine d) = 0%N ->
  forallb ascii_byte value = true ->
  snd (TextDecoder.decode d value) = text_of_bytes value.
Proof.
  induction value as [|b value IH]; intros d Hd H; [reflexivity|].
  cbn [forallb] in H. apply andb_prop in H as [Hb H].
  unfold ascii_byte in Hb. apply N.ltb_lt in Hb.
  cbn [TextDecoder.decode text_of_bytes map].
  assert (Hstep : TextDecoder.decode_byte d b =
                  ({| TextDecoder.machine := TextDecoder.machine d;
                      TextDecoder.bom_seen := true |}, [Byte.to_N b])).
  { unfold TextDecoder.decode_byte, TextDecoder.process_byte, TextDecoder.handler,
      TextDecoder.lead.
    rewrite Hd. cbn [N.eqb].
    destruct (N.leb_spec (Byte.to_N b) 127) as [_|Hgt]; [|lia].
    cbn [TextDecoder.emit TextDecoder.serialize].
    assert (Hbom : (Byte.to_N b =? 65279)%N = false) by (apply N.eqb_neq; lia).
    rewrite Hbom, andb_false_r. cbn [flat_map app].
    unfold TextDecoder.code_units.
    destruct (N.ltb_spec (Byte.to_N b) 65536) as [_|Hge]; [reflexivity | lia]. }
  rewrite Hstep.
  specialize (IH {| TextDecoder.machine := TextDecoder.machine d;
                    TextDecoder.bom_seen := true |} Hd H).
  destruct (TextDecoder.decode _ value) as [d2 s2]. cbn [snd] in *.
  now rewrite IH.
Qed.

Lemma plain_ascii bs : forallb plain_byte bs = true -> forallb ascii_byte bs = true.
Proof.
  induction bs as [|b bs IH]; intros H; [reflexivity|].
  cbn [forallb] in *. apply andb_prop in H as [Hb H].
  unfold plain_byte in Hb. apply andb_prop in Hb as [Hb _].
  now rewrite Hb, IH.
Qed.

Lemma plain_no_newline bs :
  forallb plain_byte bs = true -> no_newline (text_of_bytes bs) = true.
Proof.
  induction bs as [|b bs IH]; intros H; [reflexivity|].
  cbn [forallb] in H. apply andb_prop in H as [Hb H].
  unfold plain_byte in Hb. apply andb_prop in Hb as [_ Hb].
  cbn [text_of_bytes map no_newline forallb]. rewrite Hb. exact (IH H).
Qed.

Lemma text_of_wire payloads tail :
  text_of_bytes (flat_map wire_frame payloads ++ tail) =
  flat_map (fun f => f ++ [10%N; 10%N])
    (map (fun p => js "data:" ++ text_of_bytes p) payloads)
  ++ text_of_bytes tail.
Proof.
  unfold text_of_bytes. rewrite map_app. f_equal.
  induction payloads as [|p payloads IH]; [reflexivity|].
  cbn [flat_map map]. rewrite map_app, IH. f_equal.
  unfold wire_frame. rewrite !map_app, <- app_assoc. reflexivity.
Qed.

Section WireFacts.

Variable E : Type.
Variable JSON_parse : jsstring -> Parsed E.

Lemma read_loop_wire payloads tail reads fin :
  forallb (forallb plain_byte) payloads = true ->
  forallb plain_byte tail = true ->
  List.concat reads = flat_map wire_frame payloads ++ tail ->
  read_loop JSON_parse TextDecoder.create [] reads fin =
  finish
    (yield_events JSON_parse (map (fun p => js "data:" ++ text_of_bytes p) payloads))
    fin.
Proof.
  intros Hp Ht Hreads.
  rewrite read_loop_whole by reflexivity. cbn [app].
  assert (Hall : forallb ascii_byte (List.concat reads) = true).
  { rewrite Hreads, forallb_app, (plain_ascii _ Ht), andb_true_r.
    clear Hreads. induction payloads as [|p payloads IH]; [reflexivity|].
    cbn [forallb] in Hp. apply andb_prop in Hp as [Hp1 Hp2].
    cbn [flat_map]. rewrite forallb_app, (IH Hp2), andb_true_r.
    unfold wire_frame. rewrite !forallb_app, (plain_ascii _ Hp1). reflexivity. }
  rewrite decode_ascii by (reflexivity || exact Hall).
  rewrite Hreads, text_of_wire, split_frames.
  - rewrite split_no_newline by now apply plain_no_newline.
    now rewrite removelast_last.
  - clear Hreads Hall. induction payloads as [|p payloads IH]; [reflexivity|].
    cbn [forallb] in Hp. apply andb_prop in Hp as [Hp1 Hp2].
    cbn [map forallb]. rewrite (IH Hp2), andb_true_r.
    unfold no_newline. rewrite forallb_app.
    fold (no_newline (text_of_bytes p)). now rewrite plain_no_newline.
Qed.

Lemma yield_events_filter evs :
  yield_events JSON_parse evs = yield_events JSON_parse (filter is_data_frame evs).
Proof.
  induction evs as [|event evs IH]; [reflexivity|].
  cbn [filter]. destruct (is_data_frame event) eqn:Hf; unfold is_data_frame in Hf.
  - apply andb_prop in Hf as [Hs Ht].
    cbn [yield_events]. rewrite Hs, Ht. cbn [negb]. now rewrite IH.
  - cbn [yield_events].
    destruct (startsWith event (js "data:")); cbn [negb andb] in *; [|exact IH].
    rewrite Hf. exact IH.
Qed.

End WireFacts.

(** X2. What the server frames is what the generators yield: for ASCII
    payloads without line feeds, each written as [data:], the payload and
    a blank line, the stream is the per-frame loop run over exactly those
    frames in order, however the bytes are cut into chunks; an unfinished
    frame at the end of the bytes is dropped. *)
Theorem frames_sent_are_frames_yielded :
  forall (E : Type) (JSON_parse : jsstring -> Parsed E)
         (payloads : list (list byte)) (tail : list byte)
         (reads : list (list byte)) (fin : Ending),
    forallb (forallb plain_byte) payloads = true ->
    forallb plain_byte tail = true ->
    List.concat reads = flat_map wire_frame payloads ++ tail ->
    streamFromResponse JSON_parse
      {| body := Some {| chunks := reads; reader_end := fin |} |} =
    finish
      (yield_events JSON_parse (map (fun p => js "data:" ++ text_of_bytes p) payloads)) fin
    /\
    streamFromCrewResponse JSON_parse
      {| body := Some {| chunks := reads; reader_end := fin |} |} =
    finish
      (yield_events JSON_parse (map (fun p => js "data:" ++ text_of_bytes p) payloads)) fin.
Proof.
  intros E JSON_parse payloads tail reads fin Hp Ht Hreads.
  unfold streamFromResponse, streamFromCrewResponse; cbn [body chunks reader_end].
  split; now apply read_loop_wire with (tail := tail).
Qed.

Lemma frames_sent_are_frames_yielded_witness :
  streamFromResponse echo
    {| body := Some {| chunks := sample_reads; reader_end := Finished |} |} =
  {| events := [js "a"; js "b"]; ending := Finished |}.
Proof.
  exact (proj1 (frames_sent_are_frames_yielded echo
                  [list_byte_of_string " a"; list_byte_of_string "b "]
                  (list_byte_of_string "data: c") sample_reads Finished
                  eq_refl eq_refl eq_refl)).
Defined.

(** X3. Segments that do not start with [data:], and data lines whose
    payload is blank, never reach [JSON.parse]: the events yielded and the
    exception raised, if any, are those of the data frames alone. *)
Theorem only_data_frames_are_parsed :
  forall (E : Type) (JSON_parse : jsstring -> Parsed E) (evs : list jsstring),
    yield_events JSON_parse evs = yield_events JSON_parse (filter is_data_frame evs).
Proof. intros E JSON_parse evs. apply yield_events_filter. Qed.

Lemma data_frame_of_payload (x : jsstring) :
  is_data_frame (js "data:" ++ x) = truthy (trim x).
Proof. unfold is_data_frame. cbn. now destruct x. Qed.

Lemma yield_events_failure (E : Type) (JSON_parse : jsstring -> Parsed E)
    (a : list jsstring) (f : jsstring) (b : list jsstring) (es : list E) (t : Thrown) :
  yield_events JSON_parse a = (es, None) ->
  is_data_frame f = true ->
  JSON_parse (trim (slice 5 f)) = SyntaxError t ->
  yield_events JSON_parse (a ++ f :: b) = (es, Some t).
Proof.
  intros Ha Hf Hbad. rewrite yield_events_app, Ha.
  unfold is_data_frame in Hf. apply andb_prop in Hf as [Hs Ht].
  cbn [yield_events]. rewrite Hs, Ht. cbn [negb]. rewrite Hbad.
  now rewrite app_nil_r.
Qed.

(** X4. A malformed payload fails loudly: the events of the frames before
    it are delivered, the stream then ends with the exception of
    [JSON.parse], and no later frame is yielded, whatever follows on the
    wire and however the reader would have ended. *)
Theorem malformed_payload_ends_the_stream :
  forall (E : Type) (JSON_parse : jsstring -> Parsed E)
         (before : list (list byte)) (bad : list byte) (after : list (list byte))
         (tail : list byte) (reads : list (list byte)) (fin : Ending)
         (es : list E) (t : Thrown),
    forallb (forallb plain_byte) (before ++ bad :: after) = true ->
    forallb plain_byte tail = true ->
    List.concat reads = flat_map wire_frame (before ++ bad :: after) ++ tail ->
    yield_events JSON_parse (map (fun p => js "data:" ++ text_of_bytes p) before) = (es, None) ->
    truthy (trim (text_of_bytes bad)) = true ->
    JSON_parse (trim (text_of_bytes bad)) = SyntaxError t ->
    streamFromResponse JSON_parse
      {| body := Some {| chunks := reads; reader_end := fin |} |} =
    {| events := es; ending := Threw t |}.
Proof.
  intros E JSON_parse before bad after tail reads fin es t Hp Ht Hreads Hes Hne Hbad.
  unfold streamFromResponse; cbn [body chunks reader_end].
  rewrite (read_loop_wire JSON_parse _ _ _ fin Hp Ht Hreads).
  rewrite map_app. cbn [map].
  erewrite yield_events_failure; [reflexivity | exact Hes | | exact Hbad].
  now rewrite data_frame_of_payload.
Qed.

Lemma malformed_payload_ends_the_stream_witness :
  streamFromResponse strict_echo
    {| body := Some {| chunks := [ list_byte_of_string "data: a" ++ [x0a; x0a];
                                   list_byte_of_string "data: oops" ++ [x0a; x0a]
                                   ++ list_byte_of_string "data: b" ++ [x0a; x0a] ];
                       reader_end := Finished |} |} =
  {| events := [js "a"]; ending := Threw (ErrorObject (js "Unexpected token o")) |}.
Proof.
  exact (malformed_payload_ends_the_stream strict_echo
           [list_byte_of_string " a"] (list_byte_of_string " oops")
           [list_byte_of_string " b"] []
           [ list_byte_of_string "data: a" ++ [x0a; x0a];
             list_byte_of_string "data: oops" ++ [x0a; x0a]
             ++ list_byte_of_string "data: b" ++ [x0a; x0a] ]
           Finished eq_refl eq_refl eq_refl eq_refl eq_refl eq_refl).
Defined.

(** X5. The events a generator yields do not depend on how the reader
    ends: a rejected read after the last chunk loses none of the events
    decoded before it. The stream ends as the reader ends, unless
    [JSON.parse] threw first. *)
Theorem reader_end_keeps_events :
  forall (E : Type) (JSON_parse : jsstring -> Parsed E)
         (reads : list (list byte)) (fin fin' : Ending),
    let s := streamFromResponse JSON_parse
               {| body := Some {| chunks := reads; reader_end := fin |} |} in
    let s' := streamFromResponse JSON_parse
                {| body := Some {| chunks := reads; reader_end := fin' |} |} in
    events s = events s'
    /\ ((ending s = fin /\ ending s' = fin')
        \/ exists t, ending s = Threw t /\ ending s' = Threw t).
Proof.
  intros E JSON_parse reads fin fin'.
  unfold streamFromResponse; cbn [body chunks reader_end].
  rewrite !read_loop_whole by reflexivity.
  destruct (yield_events JSON_parse _) as [es [t|]]; cbn.
  - split; [reflexivity|]. right. now exists t.
  - split; [reflexivity|]. now left.
Qed.

(* ================================================================== *)
(** * Further properties of the chat panels *)
(* ================================================================== *)

Lemma trimStart_blank s : forallb is_white_space s = true -> trimStart s = [].
Proof.
  induction s as [|c s IH]; [reflexivity|].
  cbn [forallb trimStart]. intros H. apply andb_prop in H as [Hc H].
  rewrite Hc. exact (IH H).
Qed.

Lemma trim_blank s : forallb is_white_space s = true -> trim s = [].
Proof. intros H. unfold trim. now rewrite (trimStart_blank _ H). Qed.

(** X6. A send with a prompt (or task) of white space only, or while a
    stream is already running, does nothing: state and store are left as
    they are and the stream is not consumed. *)
Theorem blank_or_busy_send_does_nothing :
  (forall (S : Type) (M : UsageStore S) (choice : Choice) (s : SingleChatPanel.State)
          (st : S) (stream : Stream StreamEvent),
      forallb is_white_space (SingleChatPanel.prompt s) = true
      \/ SingleChatPanel.busy s = true ->
      SingleChatPanel.submit choice s st stream = (s, st))
  /\
  (forall (S : Type) (M : UsageStore S) (l r : Choice) (s : ComparePanel.State)
          (st : S) (stream : Stream StreamEvent),
      forallb is_white_space (ComparePanel.prompt s) = true
      \/ ComparePanel.busy s = true ->
      ComparePanel.submit l r s st stream = (s, st))
  /\
  (forall (s : CrewPanel.State) (st : AppStore.AppState) (stream : Stream CrewStreamEvent),
      forallb is_white_space (CrewPanel.task s) = true
      \/ CrewPanel.isRunning s = true ->
      CrewPanel.handleSubmit s st stream = (s, st)).
Proof.
  split; [|split].
  - intros S M choice s st stream [H|H]; unfold SingleChatPanel.submit, SingleChatPanel.canSend.
    + now rewrite (trim_blank _ H).
    + now rewrite H, andb_false_r.
  - intros S M l r s st stream [H|H]; unfold ComparePanel.submit.
    + now rewrite (trim_blank _ H).
    + now rewrite H, orb_true_r.
  - intros s st stream [H|H]; unfold CrewPanel.handleSubmit.
    + now rewrite (trim_blank _ H).
    + now rewrite H, orb_true_r.
Qed.

Lemma blank_or_busy_send_does_nothing_witness :
  SingleChatPanel.submit gpt4o (single_typed (js "  ")) AppStore.initial hi_there =
    (single_typed (js "  "), AppStore.initial)
  /\
  ComparePanel.submit gpt4o haiku (compare_typed (js "  ")) AppStore.initial hi_there_left =
    (compare_typed (js "  "), AppStore.initial)
  /\
  CrewPanel.handleSubmit (crew_typed (js "  ")) AppStore.initial two_agents =
    (crew_typed (js "  "), AppStore.initial).
Proof.
  split; [|split].
  - apply (proj1 blank_or_busy_send_does_nothing). now left.
  - apply (proj1 (proj2 blank_or_busy_send_does_nothing)). now left.
  - apply (proj2 (proj2 blank_or_busy_send_does_nothing)). now left.
Defined.

(** X7. A send starts from a clean slate: its outcome depends on the
    prompt and on the stream, not on the response, usage or accumulated
    text a previous send left behind. *)
Theorem send_ignores_previous_turn :
  (forall (S : Type) (M : UsageStore S) (choice : Choice) (s s' : SingleChatPanel.State)
          (st : S) (stream : Stream StreamEvent),
      SingleChatPanel.prompt s = SingleChatPanel.prompt s' ->
      SingleChatPanel.imageUrl s = SingleChatPanel.imageUrl s' ->
      SingleChatPanel.canSend s = true -> SingleChatPanel.canSend s' = true ->
      SingleChatPanel.submit choice s st stream = SingleChatPanel.submit choice s' st stream)
  /\
  (forall (S : Type) (M : UsageStore S) (l r : Choice) (s s' : ComparePanel.State)
          (st : S) (stream : Stream StreamEvent),
      ComparePanel.prompt s = ComparePanel.prompt s' ->
      truthy (trim (ComparePanel.prompt s)) = true ->
      ComparePanel.busy s = false -> ComparePanel.busy s' = false ->
      ComparePanel.submit l r s st stream = ComparePanel.submit l r s' st stream)
  /\
  (forall (s : CrewPanel.State) (e : option jsstring) (st st' : AppStore.AppState)
          (stream : Stream CrewStreamEvent),
      truthy (trim (CrewPanel.task s)) = true -> CrewPanel.isRunning s = false ->
      AppStore.crewBudget st = AppStore.crewBudget st' ->
      AppStore.sessionTokensIn st = AppStore.sessionTokensIn st' ->
      AppStore.sessionTokensOut st = AppStore.sessionTokensOut st' ->
      AppStore.sessionCost st = AppStore.sessionCost st' ->
      CrewPanel.handleSubmit s st stream =
      CrewPanel.handleSubmit (CrewPanel.setError e s) st' stream).
Proof.
  split; [|split].
  - intros S M choice s s' st stream Hp Hi Hs Hs'.
    unfold SingleChatPanel.submit. rewrite Hs, Hs'. cbn [negb].
    unfold SingleChatPanel.run.
    assert (Hb : SingleChatPanel.begin s st = SingleChatPanel.begin s' st).
    { clear Hs Hs'. destruct s, s'. cbn in Hp, Hi. subst. reflexivity. }
    now rewrite Hb.
  - intros S M l r s s' st stream Hp Ht Hb Hb'.
    unfold ComparePanel.submit. rewrite <- Hp, Ht, Hb, Hb'. cbn [negb orb].
    unfold ComparePanel.run.
    assert (Hbeg : ComparePanel.begin s st = ComparePanel.begin s' st).
    { clear Ht Hb Hb'. destruct s, s'. cbn in Hp. subst. reflexivity. }
    now rewrite Hbeg.
  - intros s e st st' stream Ht Hr H1 H2 H3 H4.
    unfold CrewPanel.handleSubmit. cbn [CrewPanel.setError CrewPanel.task CrewPanel.isRunning].
    rewrite Ht, Hr. cbn [negb orb].
    assert (Hreset : AppStore.resetCrewState st = AppStore.resetCrewState st').
    { unfold AppStore.resetCrewState. now rewrite H1, H2, H3, H4. }
    rewrite Hreset. reflexivity.
Qed.

Lemma send_ignores_previous_turn_witness :
  SingleChatPanel.submit gpt4o (single_typed (js "hi")) AppStore.initial hi_there =
  SingleChatPanel.submit gpt4o
    (fst (SingleChatPanel.submit gpt4o (single_typed (js "hi")) AppStore.initial
            partial_then_throw))
    AppStore.initial hi_there.
Proof.
  apply (proj1 send_ignores_previous_turn); reflexivity.
Defined.

Lemma truthy_app a b : truthy a = true -> truthy (a ++ b) = true.
Proof. now destruct a. Qed.

Lemma or_else_truthy a b : truthy a = true -> or_else a b = a.
Proof. unfold or_else. now intros ->. Qed.

Lemma other_side_events evs :
  forallb (on_side left) evs = true -> side_events right evs = [].
Proof.
  induction evs as [|ev evs IH]; [reflexivity|].
  cbn [forallb]. intros H. apply andb_prop in H as [Hev H].
  rewrite side_events_cons, (IH H).
  unfold on_side in *. now destruct (side_of ev) as [[|]|].
Qed.

Lemma other_side_events' evs :
  forallb (on_side right) evs = true -> side_events left evs = [].
Proof.
  induction evs as [|ev evs IH]; [reflexivity|].
  cbn [forallb]. intros H. apply andb_prop in H as [Hev H].
  rewrite side_events_cons, (IH H).
  unfold on_side in *. now destruct (side_of ev) as [[|]|].
Qed.

Module CompareOutputFacts.

Import ComparePanel.

Section Facts.

Context {S : Type} {store_methods : UsageStore S}.
Variables l r' : Choice.

Lemma quiet_step (r : Run) ev :
  is_error_event ev = false ->
  leftOutput (state (loop_body l r' r ev)) = leftOutput (state r) ++ text_for left ev
  /\ rightOutput (state (loop_body l r' r ev)) = rightOutput (state r) ++ text_for right ev.
Proof.
  destruct ev as [|[[|c t]|] [[|]|]|[[|]|] [u|]|[[|]|] [u|]|m sd]; try discriminate;
    intros _; cbn; rewrite ?app_nil_r; split; reflexivity.
Qed.

Lemma quiet_loop evs : forall r : Run,
  forallb (fun ev => negb (is_error_event ev)) evs = true ->
  leftOutput (state (fold_left (loop_body l r') evs r)) =
    leftOutput (state r) ++ streamed_text (side_events left evs)
  /\ rightOutput (state (fold_left (loop_body l r') evs r)) =
    rightOutput (state r) ++ streamed_text (side_events right evs).
Proof.
  induction evs as [|ev evs IH]; intros r H.
  - cbn. now rewrite !app_nil_r.
  - cbn [forallb] in H. apply andb_prop in H as [Hev H].
    apply negb_true_iff in Hev.
    cbn [fold_left]. destruct (IH (loop_body l r' r ev) H) as [Hl Hr].
    destruct (quiet_step r ev Hev) as [Hl1 Hr1].
    rewrite Hl, Hr, Hl1, Hr1, !CompareFacts.side_text_cons, <- !app_assoc.
    split; reflexivity.
Qed.

Lemma shown_step_left (r : Run) ev :
  truthy (leftOutput (state r)) = true ->
  leftOutput (state (loop_body l r' r ev)) = leftOutput (state r) ++ text_for left ev.
Proof.
  intros Hshown.
  destruct ev as [|[[|c t]|] [[|]|]|[[|]|] [u|]|[[|]|] [u|]|m [[|]|]]; cbn;
    unfold show_error; rewrite ?or_else_truthy by exact Hshown; rewrite ?app_nil_r; reflexivity.
Qed.

Lemma shown_step_right (r : Run) ev :
  truthy (rightOutput (state r)) = true ->
  rightOutput (state (loop_body l r' r ev)) = rightOutput (state r) ++ text_for right ev.
Proof.
  intros Hshown.
  destruct ev as [|[[|c t]|] [[|]|]|[[|]|] [u|]|[[|]|] [u|]|m [[|]|]]; cbn;
    unfold show_error; rewrite ?or_else_truthy by exact Hshown; rewrite ?app_nil_r; reflexivity.
Qed.

Lemma shown_loop_left evs : forall r : Run,
  truthy (leftOutput (state r)) = true ->
  leftOutput (state (fold_left (loop_body l r') evs r)) =
    leftOutput (state r) ++ streamed_text (side_events left evs).
Proof.
  induction evs as [|ev evs IH]; intros r H.
  - cbn. now rewrite app_nil_r.
  - cbn [fold_left]. pose proof (shown_step_left r ev H) as Hstep.
    rewrite IH by (rewrite Hstep; now apply truthy_app).
    now rewrite Hstep, CompareFacts.side_text_cons, <- app_assoc.
Qed.

Lemma shown_loop_right evs : forall r : Run,
  truthy (rightOutput (state r)) = true ->
  rightOutput (state (fold_left (loop_body l r') evs r)) =
    rightOutput (state r) ++ streamed_text (side_events right evs).
Proof.
  induction evs as [|ev evs IH]; intros r H.
  - cbn. now rewrite app_nil_r.
  - cbn [fold_left]. pose proof (shown_step_right r ev H) as Hstep.
    rewrite IH by (rewrite Hstep; now apply truthy_app).
    now rewrite Hstep, CompareFacts.side_text_cons, <- app_assoc.
Qed.

Lemma left_only_step (r : Run) ev :
  on_side left ev = true ->
  rightOutput (state (loop_body l r' r ev)) = rightOutput (state r)
  /\ rightAccRef (state (loop_body l r' r ev)) = rightAccRef (state r).
Proof.
  destruct ev as [|[[|c t]|] [[|]|]|[[|]|] [u|]|[[|]|] [u|]|m [[|]|]]; try discriminate;
    intros _; cbn; split; reflexivity.
Qed.

Lemma right_only_step (r : Run) ev :
  on_side right ev = true ->
  leftOutput (state (loop_body l r' r ev)) = leftOutput (state r)
  /\ leftAccRef (state (loop_body l r' r ev)) = leftAccRef (state r).
Proof.
  destruct ev as [|[[|c t]|] [[|]|]|[[|]|] [u|]|[[|]|] [u|]|m [[|]|]]; try discriminate;
    intros _; cbn; split; reflexivity.
Qed.

Lemma left_only_loop evs : forall r : Run,
  forallb (on_side left) evs = true ->
  rightOutput (state (fold_left (loop_body l r') evs r)) = rightOutput (state r)
  /\ rightAccRef (state (fold_left (loop_body l r') evs r)) = rightAccRef (state r).
Proof.
  induction evs as [|ev evs IH]; intros r H; [split; reflexivity|].
  cbn [forallb] in H. apply andb_prop in H as [Hev H].
  cbn [fold_left]. destruct (IH (loop_body l r' r ev) H) as [H1 H2].
  destruct (left_only_step r ev Hev) as [H3 H4].
  rewrite H1, H2, H3, H4. split; reflexivity.
Qed.

Lemma right_only_loop evs : forall r : Run,
  forallb (on_side right) evs = true ->
  leftOutput (state (fold_left (loop_body l r') evs r)) = leftOutput (state r)
  /\ leftAccRef (state (fold_left (loop_body l r') evs r)) = leftAccRef (state r).
Proof.
  induction evs as [|ev evs IH]; intros r H; [split; reflexivity|].
  cbn [forallb] in H. apply andb_prop in H as [Hev H].
  cbn [fold_left]. destruct (IH (loop_body l r' r ev) H) as [H1 H2].
  destruct (right_only_step r ev Hev) as [H3 H4].
  rewrite H1, H2, H3, H4. split; reflexivity.
Qed.

(** The [finally] block writes usage and [busy] only. *)
Lemma finally_keeps_text (r : Run) :
  leftOutput (state (finally l r' r)) = leftOutput (state r)
  /\ rightOutput (state (finally l r' r)) = rightOutput (state r)
  /\ leftAccRef (state (finally l r' r)) = leftAccRef (state r)
  /\ rightAccRef (state (finally l r' r)) = rightAccRef (state r).
Proof.
  unfold finally, finally_right, finally_left.
  destruct (negb (gotLeftUsage r) && truthy (leftAccRef (state r))); cbn;
    match goal with |- context [if ?c then _ else _] => destruct c end;
    cbn; repeat split; reflexivity.
Qed.

End Facts.

End CompareOutputFacts.

(** X8. The sides of a comparison are isolated: a stream that ends
    normally and delivers only events tagged left leaves the right side
    empty - no output, no accumulated text, no usage - and a stream of
    right events only leaves the left side empty. *)
Theorem one_sided_stream_leaves_other_side_empty :
  forall (S : Type) (M : UsageStore S) (l r : Choice) (s : ComparePanel.State)
         (st : S) (stream : Stream StreamEvent),
    truthy (trim (ComparePanel.prompt s)) = true -> ComparePanel.busy s = false ->
    ending stream = Finished ->
    let s' := fst (ComparePanel.submit l r s st stream) in
    (forallb (on_side left) (events stream) = true ->
       ComparePanel.rightOutput s' = [] /\ ComparePanel.rightAccRef s' = []
       /\ ComparePanel.rightUsage s' = None)
    /\
    (forallb (on_side right) (events stream) = true ->
       ComparePanel.leftOutput s' = [] /\ ComparePanel.leftAccRef s' = []
       /\ ComparePanel.leftUsage s' = None).
Proof.
  intros S M l r s st stream Hp Hb Hfin s'. subst s'.
  rewrite CompareFacts.compare_submit_spec by assumption. cbn [fst].
  destruct (CompareFacts.compare_run_spec l r s st stream) as (Hlu & Hru & _).
  rewrite Hlu, Hru. unfold ComparePanel.run. rewrite Hfin.
  destruct (CompareOutputFacts.finally_keeps_text l r
              (fold_left (ComparePanel.loop_body l r) (events stream)
                 (ComparePanel.begin s st))) as (K1 & K2 & K3 & K4).
  rewrite K1, K2, K3, K4. split; intros Hside.
  - destruct (CompareOutputFacts.left_only_loop l r (events stream)
                (ComparePanel.begin s st) Hside) as [H1 H2].
    rewrite H1, H2, (other_side_events _ Hside). repeat split; reflexivity.
  - destruct (CompareOutputFacts.right_only_loop l r (events stream)
                (ComparePanel.begin s st) Hside) as [H1 H2].
    rewrite H1, H2, (other_side_events' _ Hside). repeat split; reflexivity.
Qed.

Lemma one_sided_stream_leaves_other_side_empty_witness :
  let s' := fst (ComparePanel.submit gpt4o haiku (compare_typed (js "hi")) AppStore.initial
                   left_only) in
  ComparePanel.rightOutput s' = [] /\ ComparePanel.rightAccRef s' = []
  /\ ComparePanel.rightUsage s' = None.
Proof.
  exact (proj1 (one_sided_stream_leaves_other_side_empty _ gpt4o haiku
                  (compare_typed (js "hi")) AppStore.initial left_only
                  eq_refl eq_refl eq_refl) eq_refl).
Defined.

(** X9. In the compare panel a stream without [error] events that ends
    normally shows on each side exactly the text of that side's [delta]
    events, in order; a stream that throws shows the error message on
    both sides, whatever had streamed. *)
Theorem compare_outputs_after_stream :
  forall (S : Type) (M : UsageStore S) (l r : Choice) (s : ComparePanel.State)
         (st : S) (stream : Stream StreamEvent),
    truthy (trim (ComparePanel.prompt s)) = true -> ComparePanel.busy s = false ->
    let s' := fst (ComparePanel.submit l r s st stream) in
    (ending stream = Finished ->
     forallb (fun ev => negb (is_error_event ev)) (events stream) = true ->
       ComparePanel.leftOutput s' = streamed_text (side_events left (events stream))
       /\ ComparePanel.rightOutput s' = streamed_text (side_events right (events stream)))
    /\
    (forall e, ending stream = Threw e ->
       ComparePanel.leftOutput s' = error_text e (js "Compare stream failed")
       /\ ComparePanel.rightOutput s' = error_text e (js "Compare stream failed")).
Proof.
  intros S M l r s st stream Hp Hb s'. subst s'.
  rewrite CompareFacts.compare_submit_spec by assumption. cbn [fst].
  unfold ComparePanel.run. split.
  - intros -> Hquiet.
    destruct (CompareOutputFacts.finally_keeps_text l r
                (fold_left (ComparePanel.loop_body l r) (events stream)
                   (ComparePanel.begin s st))) as (K1 & K2 & _).
    rewrite K1, K2.
    destruct (CompareOutputFacts.quiet_loop l r (events stream)
                (ComparePanel.begin s st) Hquiet) as [H1 H2].
    rewrite H1, H2. split; reflexivity.
  - intros e ->.
    destruct (CompareOutputFacts.finally_keeps_text l r
                (ComparePanel.catch e
                   (fold_left (ComparePanel.loop_body l r) (events stream)
                      (ComparePanel.begin s st)))) as (K1 & K2 & _).
    rewrite K1, K2. split; reflexivity.
Qed.

Lemma compare_outputs_after_stream_witness :
  let s' := fst (ComparePanel.submit gpt4o haiku (compare_typed (js "hi")) AppStore.initial
                   hi_there_left) in
  ComparePanel.leftOutput s' = js "Hi there" /\ ComparePanel.rightOutput s' = js "Hello".
Proof.
  exact (proj1 (compare_outputs_after_stream _ gpt4o haiku (compare_typed (js "hi"))
                  AppStore.initial hi_there_left eq_refl eq_refl) eq_refl eq_refl).
Defined.

(** X10. What a side of the comparison shows is append-only once it is
    not empty: if a side shows something after the first events of a
    stream, then at the end of the stream, when it ends normally, the
    side shows that followed by the text of the side's later [delta]
    events, whatever [error] events, with or without a side, came in
    between. In particular no [error] event erases or changes text that
    has streamed. *)
Theorem shown_side_is_append_only :
  forall (S : Type) (M : UsageStore S) (l r : Choice) (s : ComparePanel.State)
         (st : S) (before after : list StreamEvent),
    truthy (trim (ComparePanel.prompt s)) = true -> ComparePanel.busy s = false ->
    let mid := fst (ComparePanel.submit l r s st
                      {| events := before; ending := Finished |}) in
    let fin := fst (ComparePanel.submit l r s st
                      {| events := before ++ after; ending := Finished |}) in
    (truthy (ComparePanel.leftOutput mid) = true ->
     ComparePanel.leftOutput fin =
     ComparePanel.leftOutput mid ++ streamed_text (side_events left after))
    /\
    (truthy (ComparePanel.rightOutput mid) = true ->
     ComparePanel.rightOutput fin =
     ComparePanel.rightOutput mid ++ streamed_text (side_events right after)).
Proof.
  intros S M l r s st before after Hp Hb. cbv zeta.
  rewrite !CompareFacts.compare_submit_spec by assumption. cbn [fst].
  unfold ComparePanel.run. cbn [events ending]. rewrite fold_left_app.
  set (r0 := fold_left (ComparePanel.loop_body l r) before (ComparePanel.begin s st)).
  destruct (CompareOutputFacts.finally_keeps_text l r r0) as (K1 & K2 & _).
  destruct (CompareOutputFacts.finally_keeps_text l r
              (fold_left (ComparePanel.loop_body l r) after r0)) as (K3 & K4 & _).
  rewrite K1, K2, K3, K4. split; intros Hshown.
  - now apply CompareOutputFacts.shown_loop_left.
  - now apply CompareOutputFacts.shown_loop_right.
Qed.

Lemma shown_side_is_append_only_witness :
  ComparePanel.leftOutput
    (fst (ComparePanel.submit gpt4o haiku (compare_typed (js "hi")) AppStore.initial
            {| events := text_then_errors ++ errors_then_text; ending := Finished |})) =
  js "Hi there".
Proof.
  exact (proj1 (shown_side_is_append_only _ gpt4o haiku (compare_typed (js "hi"))
                  AppStore.initial text_then_errors errors_then_text eq_refl eq_refl)
           eq_refl).
Defined.

(** The store after a chat stream holds the crew state it held before. *)
Lemma add_infos_keep_crew (infos : list UsageInfo) : forall st : AppStore.AppState,
  let st' := fold_left (fun st i => add_info i st) infos st in
  AppStore.agentOutputs st' = AppStore.agentOutputs st
  /\ AppStore.synthesisText st' = AppStore.synthesisText st
  /\ AppStore.crewTotalCost st' = AppStore.crewTotalCost st
  /\ AppStore.crewBudget st' = AppStore.crewBudget st.
Proof.
  induction infos as [|i infos IH]; intros st; [repeat split; reflexivity|].
  cbn [fold_left]. destruct (IH (add_info i st)) as (H1 & H2 & H3 & H4).
  cbv zeta. rewrite H1, H2, H3, H4. repeat split; reflexivity.
Qed.

Module CrewStreamFacts.

Import AppStore CrewPanel.

Lemma snd_loop evs : forall p : State * AppState,
  snd (fold_left loop_body evs p) = fold_left on_event evs (snd p).
Proof.
  induction evs as [|ev evs IH]; intros p; [reflexivity|].
  cbn [fold_left]. now rewrite IH.
Qed.

(** The store after [handleSubmit] has passed its guard. *)
Lemma handleSubmit_store s st stream :
  truthy (trim (task s)) = true -> isRunning s = false ->
  snd (handleSubmit s st stream) = fold_left on_event (events stream) (resetCrewState st).
Proof.
  intros Ht Hr. unfold handleSubmit. rewrite Ht, Hr. cbn [negb orb snd].
  destruct (ending stream); cbn [snd]; now rewrite snd_loop.
Qed.

Lemma resets_session agents : forall st,
  let st' := fold_left (fun st a => updateAgentOutput a reset_update st) agents st in
  sessionTokensIn st' = sessionTokensIn st
  /\ sessionTokensOut st' = sessionTokensOut st
  /\ sessionCost st' = sessionCost st
  /\ crewBudget st' = crewBudget st
  /\ synthesisText st' = synthesisText st.
Proof.
  induction agents as [|a agents IH]; intros st; [repeat split; reflexivity|].
  cbn [fold_left].
  destruct (IH (updateAgentOutput a reset_update st)) as (H1 & H2 & H3 & H4 & H5).
  cbv zeta. rewrite H1, H2, H3, H4, H5. repeat split; reflexivity.
Qed.

Lemma on_event_session st ev :
  sessionTokensIn (on_event st ev) = sessionTokensIn st
  /\ sessionTokensOut (on_event st ev) = sessionTokensOut st
  /\ sessionCost (on_event st ev) = sessionCost st
  /\ crewBudget (on_event st ev) = crewBudget st.
Proof.
  destruct ev as [sid agents|sub|a sid m|a sid t|a sid c tk|t|[c|]|m]; cbn [on_event];
    try (repeat split; reflexivity).
  - destruct (resets_session (nullish agents []) st) as (H1 & H2 & H3 & H4 & _).
    now repeat split.
  - destruct (truthy_opt a); repeat split; reflexivity.
  - destruct (truthy_opt a && truthy_opt t); repeat split; reflexivity.
  - destruct (truthy_opt a); repeat split; reflexivity.
  - destruct (truthy_opt t); repeat split; reflexivity.
Qed.

Lemma loop_session evs : forall st,
  let st' := fold_left on_event evs st in
  sessionTokensIn st' = sessionTokensIn st
  /\ sessionTokensOut st' = sessionTokensOut st
  /\ sessionCost st' = sessionCost st
  /\ crewBudget st' = crewBudget st.
Proof.
  induction evs as [|ev evs IH]; intros st; [repeat split; reflexivity|].
  cbn [fold_left]. destruct (IH (on_event st ev)) as (H1 & H2 & H3 & H4).
  destruct (on_event_session st ev) as (K1 & K2 & K3 & K4).
  cbv zeta. rewrite H1, H2, H3, H4, K1, K2, K3, K4. repeat split; reflexivity.
Qed.

Lemma on_event_synthesis st ev :
  synthesisText (on_event st ev) = synthesisText st ++ synthesis_text ev.
Proof.
  destruct ev as [sid agents|sub|a sid m|a sid t|a sid c tk|[t|]|[c|]|m];
    cbn [on_event synthesis_text truthy_opt nullish]; rewrite ?app_nil_r; try reflexivity.
  - now destruct (resets_session (nullish agents []) st) as (_ & _ & _ & _ & H).
  - now destruct (truthy_opt a).
  - now destruct (truthy_opt a && truthy_opt t).
  - now destruct (truthy_opt a).
  - destruct t as [|c t]; cbn; [now rewrite app_nil_r | reflexivity].
Qed.

Lemma loop_synthesis evs : forall st,
  synthesisText (fold_left on_event evs st) = synthesisText st ++ flat_map synthesis_text evs.
Proof.
  induction evs as [|ev evs IH]; intros st; cbn [fold_left flat_map].
  - now rewrite app_nil_r.
  - now rewrite IH, on_event_synthesis, <- app_assoc.
Qed.

End CrewStreamFacts.

(** X11. The two accountings do not touch each other: a crew stream never
    changes the session totals or the budget, and a chat stream, single
    or compare, never changes the agents, the synthesis, the crew total
    or the budget. *)
Theorem crew_and_session_state_are_separate :
  (forall (s : CrewPanel.State) (st : AppStore.AppState) (stream : Stream CrewStreamEvent),
      let st' := snd (CrewPanel.handleSubmit s st stream) in
      AppStore.sessionTokensIn st' = AppStore.sessionTokensIn st
      /\ AppStore.sessionTokensOut st' = AppStore.sessionTokensOut st
      /\ AppStore.sessionCost st' = AppStore.sessionCost st
      /\ AppStore.crewBudget st' = AppStore.crewBudget st)
  /\
  (forall (choice : Choice) (s : SingleChatPanel.State) (st : AppStore.AppState)
          (stream : Stream StreamEvent),
      let st' := snd (SingleChatPanel.submit choice s st stream) in
      AppStore.agentOutputs st' = AppStore.agentOutputs st
      /\ AppStore.synthesisText st' = AppStore.synthesisText st
      /\ AppStore.crewTotalCost st' = AppStore.crewTotalCost st
      /\ AppStore.crewBudget st' = AppStore.crewBudget st)
  /\
  (forall (l r : Choice) (s : ComparePanel.State) (st : AppStore.AppState)
          (stream : Stream StreamEvent),
      let st' := snd (ComparePanel.submit l r s st stream) in
      AppStore.agentOutputs st' = AppStore.agentOutputs st
      /\ AppStore.synthesisText st' = AppStore.synthesisText st
      /\ AppStore.crewTotalCost st' = AppStore.crewTotalCost st
      /\ AppStore.crewBudget st' = AppStore.crewBudget st).
Proof.
  split; [|split].
  - intros s st stream. cbv zeta.
    destruct (negb (truthy (trim (CrewPanel.task s))) || CrewPanel.isRunning s) eqn:Hg.
    + unfold CrewPanel.handleSubmit. rewrite Hg. repeat split; reflexivity.
    + apply orb_false_elim in Hg as [Ht Hr]. apply negb_false_iff in Ht.
      rewrite CrewStreamFacts.handleSubmit_store by assumption.
      destruct (CrewStreamFacts.loop_session (events stream) (AppStore.resetCrewState st))
        as (H1 & H2 & H3 & H4).
      rewrite H1, H2, H3, H4. repeat split; reflexivity.
  - intros choice s st stream. cbv zeta. unfold SingleChatPanel.submit.
    destruct (negb (SingleChatPanel.canSend s)); [repeat split; reflexivity|].
    cbn [snd].
    destruct (SingleFacts.single_run_spec choice s st stream) as (_ & Hs & _).
    rewrite Hs. apply add_infos_keep_crew.
  - intros l r s st stream. cbv zeta. unfold ComparePanel.submit.
    destruct (negb (truthy (trim (ComparePanel.prompt s))) || ComparePanel.busy s);
      [repeat split; reflexivity|].
    cbn [snd].
    destruct (CompareFacts.compare_run_spec l r s st stream) as (_ & _ & Hs).
    rewrite Hs. apply add_infos_keep_crew.
Qed.

(** X12. The synthesis is append-only: after a crew stream the synthesis
    text is the concatenation, in order, of the texts of its
    [synthesis_delta] events, whatever other events came between them
    and however the stream ended. *)
Theorem synthesis_is_the_concatenation :
  forall (s : CrewPanel.State) (st : AppStore.AppState) (stream : Stream CrewStreamEvent),
    truthy (trim (CrewPanel.task s)) = true -> CrewPanel.isRunning s = false ->
    AppStore.synthesisText (snd (CrewPanel.handleSubmit s st stream)) =
    flat_map synthesis_text (events stream).
Proof.
  intros s st stream Ht Hr.
  rewrite CrewStreamFacts.handleSubmit_store by assumption.
  now rewrite CrewStreamFacts.loop_synthesis.
Qed.

Lemma synthesis_is_the_concatenation_witness :
  AppStore.synthesisText
    (snd (CrewPanel.handleSubmit (crew_typed (js "plan it")) AppStore.initial two_agents)) =
  js "All done".
Proof.
  exact (synthesis_is_the_concatenation (crew_typed (js "plan it")) AppStore.initial
           two_agents eq_refl eq_refl).
Defined.

(* ================================================================== *)
(** * Further properties of the agent records *)
(* ================================================================== *)

Module AgentFacts.

Import AppStore CrewPanel.

Lemma get_not_reset b agents : forall st,
  existsb (JS.eqb b) agents = false ->
  get (agentOutputs (fold_left (fun st a => updateAgentOutput a reset_update st) agents st)) b =
  get (agentOutputs st) b.
Proof.
  induction agents as [|a agents IH]; intros st H; cbn [fold_left]; [reflexivity|].
  cbn [existsb] in H. apply orb_false_elim in H as [Hab Hrest].
  rewrite IH by exact Hrest.
  apply StoreFacts.get_update_other. now rewrite eqb_sym.
Qed.

(** An event that does not name an agent leaves the agent's entry. *)
Lemma untouched_step st ev b :
  touches b ev = false ->
  get (agentOutputs (on_event st ev)) b = get (agentOutputs st) b.
Proof.
  destruct ev as [sid agents|sub|a sid m|a sid t|a sid c tk|t|[c|]|m];
    cbn [on_event touches]; intros H; try reflexivity.
  - now apply get_not_reset.
  - destruct (truthy_opt a); [|reflexivity]. now apply StoreFacts.get_update_other.
  - destruct (truthy_opt a && truthy_opt t); [|reflexivity].
    now apply StoreFacts.get_update_other.
  - destruct (truthy_opt a); [|reflexivity]. now apply StoreFacts.get_update_other.
  - now destruct (truthy_opt t).
Qed.

Lemma untouched_loop evs b : forall st,
  forallb (fun ev => negb (touches b ev)) evs = true ->
  get (agentOutputs (fold_left on_event evs st)) b = get (agentOutputs st) b.
Proof.
  induction evs as [|ev evs IH]; intros st H; [reflexivity|].
  cbn [forallb] in H. apply andb_prop in H as [Hev H]. apply negb_true_iff in Hev.
  cbn [fold_left]. now rewrite IH, untouched_step.
Qed.

(** ** The keys of the agent records *)

Lemma keys_replace (A : Type) k (v : A) o : map fst (replace k v o) = map fst o.
Proof.
  induction o as [|[k' v'] o IH]; [reflexivity|].
  cbn [replace]. destruct (JS.eqb k' k); cbn [map fst]; [reflexivity | now rewrite IH].
Qed.

Lemma get_none_not_in (A : Type) (o : list (jsstring * A)) k :
  get o k = None <-> ~ In k (map fst o).
Proof.
  induction o as [|[k' v'] o IH]; cbn [get own_property map fst In].
  - split; [intros _ [] | reflexivity].
  - destruct (JS.eqb k' k) eqn:Hk.
    + apply eqb_eq in Hk. subst k'. split; [discriminate | intros H; exfalso; apply H; now left].
    + unfold get in IH. rewrite IH. split.
      * intros Hn [->|Hin]; [now rewrite eqb_refl in Hk | now apply Hn].
      * intros Hn Hin. apply Hn. now right.
Qed.

Lemma in_keys_add_key (A : Type) k (v : A) o x :
  In x (map fst (add_key k v o)) -> x = k \/ In x (map fst o).
Proof.
  induction o as [|[k' v'] o IH]; cbn [add_key map fst In].
  - intros [<-|[]]. now left.
  - destruct (enumerated_before k k'); cbn [map fst In].
    + intros [<-|[<-|Hin]]; [now left | right; now left | right; now right].
    + intros [<-|Hin]; [right; now left|].
      destruct (IH Hin) as [->|Hin']; [now left | right; now right].
Qed.

Lemma NoDup_add_key (A : Type) k (v : A) o :
  NoDup (map fst o) -> ~ In k (map fst o) -> NoDup (map fst (add_key k v o)).
Proof.
  induction o as [|[k' v'] o IH]; cbn [add_key map fst]; intros Hnd Hnin.
  - constructor; [intros [] | constructor].
  - destruct (enumerated_before k k'); cbn [map fst].
    + constructor; assumption.
    + inversion Hnd as [|? ? Hk' Hnd']; subst. constructor.
      * intros Hin. apply in_keys_add_key in Hin as [->|Hin]; [|contradiction].
        apply Hnin. now left.
      * apply IH; [exact Hnd'|]. intros Hin. apply Hnin. now right.
Qed.

Lemma NoDup_set (A : Type) k (v : A) o : NoDup (map fst o) -> NoDup (map fst (set k v o)).
Proof.
  intros Hnd. unfold set. destruct (get o k) eqn:Hg.
  - now rewrite keys_replace.
  - apply NoDup_add_key; [exact Hnd | now apply get_none_not_in].
Qed.

Lemma NoDup_step st ev : NoDup (keys st) -> NoDup (keys (on_event st ev)).
Proof.
  unfold keys.
  assert (Hup : forall a u st', NoDup (map fst (agentOutputs st')) ->
                  NoDup (map fst (agentOutputs (updateAgentOutput a u st')))).
  { intros a u st' H. rewrite StoreFacts.agentOutputs_update. now apply NoDup_set. }
  destruct ev as [sid agents|sub|a sid m|a sid t|a sid c tk|t|[c|]|m];
    cbn [on_event]; intros H; try exact H.
  - revert st H. induction (nullish agents []) as [|a ags IH]; intros st H; [exact H|].
    cbn [fold_left]. apply IH. now apply Hup.
  - destruct (truthy_opt a); [now apply Hup | exact H].
  - destruct (truthy_opt a && truthy_opt t); [now apply Hup | exact H].
  - destruct (truthy_opt a); [now apply Hup | exact H].
  - now destruct (truthy_opt t).
Qed.

Lemma NoDup_loop evs : forall st,
  NoDup (keys st) -> NoDup (keys (fold_left on_event evs st)).
Proof.
  induction evs as [|ev evs IH]; intros st H; [exact H|].
  cbn [fold_left]. apply IH. now apply NoDup_step.
Qed.

Lemma existsb_eqb_in a names : existsb (JS.eqb a) names = true <-> In a names.
Proof.
  rewrite existsb_exists. split.
  - intros (x & Hin & Heq). apply eqb_eq in Heq. now subst.
  - intros Hin. exists a. split; [exact Hin | apply eqb_refl].
Qed.

Lemma distinct_NoDup names : distinct names = true <-> NoDup names.
Proof.
  induction names as [|a names IH]; cbn [distinct].
  - split; [constructor | reflexivity].
  - rewrite andb_true_iff, negb_true_iff, IH. split.
    + intros [Hn Hd]. constructor; [|exact Hd].
      intros Hin. apply existsb_eqb_in in Hin. congruence.
    + intros H. inversion H as [|? ? Hn Hd]; subst. split; [|exact Hd].
      destruct (existsb (JS.eqb a) names) eqn:He; [|reflexivity].
      apply existsb_eqb_in in He. contradiction.
Qed.

(** A name that is not an array index is added after all the others. *)
Lemma keys_add_plain (A : Type) k (v : A) o :
  plain_name k = true -> map fst (add_key k v o) = map fst o ++ [k].
Proof.
  intros Hp. induction o as [|[k' v'] o IH]; [reflexivity|].
  cbn [add_key]. unfold enumerated_before. unfold plain_name in Hp.
  destruct (array_index k); [discriminate|]. cbn [map fst app]. now rewrite IH.
Qed.

Lemma keys_update_plain a u st :
  plain_name a = true ->
  keys (updateAgentOutput a u st) =
  match get (agentOutputs st) a with
  | Some _ => keys st
  | None => keys st ++ [a]
  end.
Proof.
  intros Hp. unfold keys. rewrite StoreFacts.agentOutputs_update. unfold set.
  destruct (get (agentOutputs st) a); [apply keys_replace | now apply keys_add_plain].
Qed.

Lemma keys_resets agents : forall st,
  forallb plain_name agents = true ->
  NoDup agents -> (forall a, In a agents -> ~ In a (keys st)) ->
  keys (fold_left (fun st a => updateAgentOutput a reset_update st) agents st) =
  keys st ++ agents.
Proof.
  induction agents as [|a agents IH]; intros st Hp Hnd Hnew; cbn [fold_left].
  - now rewrite app_nil_r.
  - cbn [forallb] in Hp. apply andb_prop in Hp as [Hpa Hp].
    inversion Hnd as [|? ? Hna Hnd']; subst.
    assert (Hk : keys (updateAgentOutput a reset_update st) = keys st ++ [a]).
    { rewrite keys_update_plain by exact Hpa.
      assert (Hg : get (agentOutputs st) a = None).
      { apply get_none_not_in. apply Hnew. now left. }
      now rewrite Hg. }
    rewrite IH; [now rewrite Hk, <- app_assoc | exact Hp | exact Hnd' |].
    intros b Hb. rewrite Hk. intros Hin. apply in_app_or in Hin as [Hin|[->|[]]].
    + apply (Hnew b); [now right | exact Hin].
    + contradiction.
Qed.

(** ** The text and the other fields of an agent *)

Lemma text_step st ev a :
  lists_agent a ev = false ->
  text_of (on_event st ev) a = text_of st a ++ delta_for a ev.
Proof.
  destruct ev as [sid agents|sub|ag sid m|ag sid t|ag sid c tk|t|[c|]|m];
    cbn [on_event lists_agent delta_for]; intros H; rewrite ?app_nil_r; try reflexivity.
  - now apply CrewFacts.text_of_not_reset.
  - destruct (truthy_opt ag); [|reflexivity].
    destruct (JS.eqb (nullish ag []) a) eqn:He.
    + apply eqb_eq in He. rewrite He. now rewrite CrewFacts.text_of_update_same.
    + now apply CrewFacts.text_of_update_other.
  - destruct (truthy_opt ag && truthy_opt t); cbn [andb]; [|now rewrite app_nil_r].
    destruct (JS.eqb (nullish ag []) a) eqn:He.
    + apply eqb_eq in He. rewrite He.
      rewrite CrewFacts.text_of_update_same. cbn [u_text override].
      unfold text_of. destruct (get (agentOutputs st) a); [|reflexivity].
      now rewrite or_else_nil.
    + rewrite app_nil_r. now apply CrewFacts.text_of_update_other.
  - destruct (truthy_opt ag); [|reflexivity].
    destruct (JS.eqb (nullish ag []) a) eqn:He.
    + apply eqb_eq in He. rewrite He. now rewrite CrewFacts.text_of_update_same.
    + now apply CrewFacts.text_of_update_other.
  - now destruct (truthy_opt t).
Qed.

Lemma text_loop evs a : forall st,
  forallb (fun ev => negb (lists_agent a ev)) evs = true ->
  text_of (fold_left on_event evs st) a = text_of st a ++ flat_map (delta_for a) evs.
Proof.
  induction evs as [|ev evs IH]; intros st H; cbn [fold_left flat_map].
  - now rewrite app_nil_r.
  - cbn [forallb] in H. apply andb_prop in H as [Hev H]. apply negb_true_iff in Hev.
    now rewrite IH, text_step, <- app_assoc.
Qed.

Lemma entry_update_same a u st :
  entry (updateAgentOutput a u st) a = merge (entry st a) u.
Proof. unfold entry. now rewrite StoreFacts.get_update_same. Qed.

Lemma entry_update_other a b u st :
  JS.eqb a b = false -> entry (updateAgentOutput a u st) b = entry st b.
Proof. intros H. unfold entry. now rewrite StoreFacts.get_update_other. Qed.

End AgentFacts.

(** X13. Agents are updated one at a time: an event that does not name
    an agent - neither an agent event addressed to it nor a [crew_start]
    that lists it - leaves that agent's record as it is, and an agent no
    event of the stream names has no record after the stream. *)
Theorem unnamed_agent_is_untouched :
  forall b : jsstring,
    (forall (st : AppStore.AppState) (ev : CrewStreamEvent),
        touches b ev = false ->
        AppStore.get (AppStore.agentOutputs (CrewPanel.on_event st ev)) b =
        AppStore.get (AppStore.agentOutputs st) b)
    /\
    (forall (s : CrewPanel.State) (st : AppStore.AppState) (stream : Stream CrewStreamEvent),
        truthy (trim (CrewPanel.task s)) = true -> CrewPanel.isRunning s = false ->
        forallb (fun ev => negb (touches b ev)) (events stream) = true ->
        AppStore.get (AppStore.agentOutputs (snd (CrewPanel.handleSubmit s st stream))) b =
        None).
Proof.
  intros b. split.
  - intros st ev H. now apply AgentFacts.untouched_step.
  - intros s st stream Ht Hr H.
    rewrite CrewStreamFacts.handleSubmit_store by assumption.
    now rewrite AgentFacts.untouched_loop.
Qed.

Lemma unnamed_agent_is_untouched_witness :
  AppStore.get
    (AppStore.agentOutputs
       (snd (CrewPanel.handleSubmit (crew_typed (js "plan it")) AppStore.initial two_agents)))
    (js "reviewer") = None
  /\
  AppStore.get
    (AppStore.agentOutputs
       (CrewPanel.on_event (fold_left CrewPanel.on_event planner_events AppStore.initial)
          (agent_delta (Some (js "coder")) None (Some (js "fn")))))
    (js "planner") =
  AppStore.get
    (AppStore.agentOutputs (fold_left CrewPanel.on_event planner_events AppStore.initial))
    (js "planner").
Proof.
  split.
  - exact (proj2 (unnamed_agent_is_untouched (js "reviewer"))
             (crew_typed (js "plan it")) AppStore.initial two_agents
             eq_refl eq_refl eq_refl).
  - exact (proj1 (unnamed_agent_is_untouched (js "planner"))
             (fold_left CrewPanel.on_event planner_events AppStore.initial)
             (agent_delta (Some (js "coder")) None (Some (js "fn"))) eq_refl).
Defined.

(** X14. Every agent has one record: if the names in the store are
    pairwise different before a crew stream, they are after it, so the
    dashboard never shows two cards under one name. *)
Theorem agent_names_stay_distinct :
  forall (s : CrewPanel.State) (st : AppStore.AppState) (stream : Stream CrewStreamEvent),
    distinct (keys st) = true ->
    distinct (keys (snd (CrewPanel.handleSubmit s st stream))) = true.
Proof.
  intros s st stream H.
  destruct (negb (truthy (trim (CrewPanel.task s))) || CrewPanel.isRunning s) eqn:Hg.
  - unfold CrewPanel.handleSubmit. now rewrite Hg.
  - apply orb_false_elim in Hg as [Ht Hr]. apply negb_false_iff in Ht.
    rewrite CrewStreamFacts.handleSubmit_store by assumption.
    apply AgentFacts.distinct_NoDup, AgentFacts.NoDup_loop. constructor.
Qed.

Lemma agent_names_stay_distinct_witness :
  distinct
    (keys (snd (CrewPanel.handleSubmit (crew_typed (js "plan it")) AppStore.initial
                  two_agents))) = true.
Proof.
  exact (agent_names_stay_distinct (crew_typed (js "plan it")) AppStore.initial two_agents
           eq_refl).
Defined.

(** X15. The cards keep the order of first mention: updating an agent
    whose name is not an array index leaves the order of the names when
    the agent has a record and puts the name last when it has none; so a
    [crew_start] on a fresh run lists the agents in the order it gives
    them, provided the names are pairwise different. *)
Theorem agents_keep_order_of_first_mention :
  (forall (st : AppStore.AppState) (a : jsstring) (u : AppStore.AgentUpdate),
      plain_name a = true ->
      keys (AppStore.updateAgentOutput a u st) =
      match AppStore.get (AppStore.agentOutputs st) a with
      | Some _ => keys st
      | None => keys st ++ [a]
      end)
  /\
  (forall (st : AppStore.AppState) (sid : option jsstring) (agents : list jsstring),
      forallb plain_name agents = true -> distinct agents = true ->
      keys (CrewPanel.on_event (AppStore.resetCrewState st) (crew_start sid (Some agents))) =
      agents).
Proof.
  split.
  - intros st a u Hp. now apply AgentFacts.keys_update_plain.
  - intros st sid agents Hp Hd. cbn [CrewPanel.on_event nullish].
    rewrite AgentFacts.keys_resets.
    + reflexivity.
    + exact Hp.
    + now apply AgentFacts.distinct_NoDup.
    + intros a _ [].
Qed.

Lemma agents_keep_order_of_first_mention_witness :
  keys (CrewPanel.on_event (AppStore.resetCrewState AppStore.initial)
          (crew_start None (Some [js "planner"; js "coder"; js "reviewer"]))) =
    [js "planner"; js "coder"; js "reviewer"]
  /\
  keys (AppStore.updateAgentOutput (js "tester") CrewPanel.reset_update
          (fold_left CrewPanel.on_event planner_events AppStore.initial)) =
    [js "planner"; js "tester"].
Proof.
  split.
  - exact (proj2 agents_keep_order_of_first_mention AppStore.initial None
             [js "planner"; js "coder"; js "reviewer"] eq_refl eq_refl).
  - exact (proj1 agents_keep_order_of_first_mention
             (fold_left CrewPanel.on_event planner_events AppStore.initial)
             (js "tester") CrewPanel.reset_update eq_refl).
Defined.

(** X16. An agent's text is the concatenation of its deltas: after a crew
    stream in which no [crew_start] lists the agent, the agent's text is
    the texts of the [agent_delta] events addressed to it, in order,
    whatever was interleaved for other agents. *)
Theorem agent_text_is_the_concatenation :
  forall (s : CrewPanel.State) (st : AppStore.AppState) (stream : Stream CrewStreamEvent)
         (a : jsstring),
    truthy (trim (CrewPanel.task s)) = true -> CrewPanel.isRunning s = false ->
    forallb (fun ev => negb (lists_agent a ev)) (events stream) = true ->
    text_of (snd (CrewPanel.handleSubmit s st stream)) a =
    flat_map (delta_for a) (events stream).
Proof.
  intros s st stream a Ht Hr H.
  rewrite CrewStreamFacts.handleSubmit_store by assumption.
  now rewrite AgentFacts.text_loop.
Qed.

Lemma agent_text_is_the_concatenation_witness :
  text_of (snd (CrewPanel.handleSubmit (crew_typed (js "plan it")) AppStore.initial
                  two_agents)) (js "coder") = js "fn main".
Proof.
  exact (agent_text_is_the_concatenation (crew_typed (js "plan it")) AppStore.initial
           two_agents (js "coder") eq_refl eq_refl eq_refl).
Defined.

(** X17. Text never reopens an agent: an [agent_delta] event changes no
    agent's status, model, cost or tokens, so text that arrives after
    [agent_done] leaves the agent done with the cost and tokens it
    reported. *)
Theorem agent_delta_changes_text_only :
  forall (st : AppStore.AppState) (agent sid t : option jsstring) (b : jsstring),
    let st' := CrewPanel.on_event st (agent_delta agent sid t) in
    AppStore.status (entry st' b) = AppStore.status (entry st b)
    /\ AppStore.model (entry st' b) = AppStore.model (entry st b)
    /\ AppStore.cost (entry st' b) = AppStore.cost (entry st b)
    /\ AppStore.tokens (entry st' b) = AppStore.tokens (entry st b).
Proof.
  intros st agent sid t b. cbv zeta. cbn [CrewPanel.on_event].
  destruct (truthy_opt agent && truthy_opt t); [|repeat split; reflexivity].
  destruct (JS.eqb (nullish agent []) b) eqn:He.
  - apply eqb_eq in He. rewrite He, AgentFacts.entry_update_same.
    repeat split; reflexivity.
  - rewrite AgentFacts.entry_update_other by exact He.
    repeat split; reflexivity.
Qed.

(* ================================================================== *)
(** * Further properties of the token estimate *)
(* ================================================================== *)

(** X18. The token estimate follows the text: it is zero for the empty
    text only, it never decreases when text is appended, and the
    estimate of a concatenation is at most the sum of the estimates of
    its parts. *)
Theorem estimate_follows_text :
  forall a b : jsstring,
    (ceil_quarter (List.length a) = 0 <-> a = [])
    /\ ceil_quarter (List.length a) <= ceil_quarter (List.length (a ++ b))
    /\ ceil_quarter (List.length (a ++ b)) <=
       ceil_quarter (List.length a) + ceil_quarter (List.length b).
Proof.
  intros a b. rewrite length_app.
  pose proof (ceil_quarter_spec (List.length a)) as Ha.
  pose proof (ceil_quarter_spec (List.length b)) as Hb.
  pose proof (ceil_quarter_spec (List.length a + List.length b)) as Hab.
  split; [|lia].
  split.
  - intros H. destruct a as [|c a]; [reflexivity|]. cbn [List.length] in *. lia.
  - now intros ->.
Qed.

(* ================================================================== *)
(** * Further properties of what the panels show *)
(* ================================================================== *)

Module DoneFacts.

Import AppStore CrewPanel CrewDashboard.

Lemma get_not_done o k x :
  existsb done_entry o = false -> get o k = Some x -> is_done (status x) = false.
Proof.
  induction o as [|[k' v'] o IH]; cbn [existsb get own_property]; [discriminate|].
  intros H. apply orb_false_elim in H as [Hv Ho].
  destruct (JS.eqb k' k); [now intros [= <-] | now apply IH].
Qed.

Lemma replace_not_done o k v :
  existsb done_entry o = false -> is_done (status v) = false ->
  existsb done_entry (replace k v o) = false.
Proof.
  intros H Hv. induction o as [|[k' v'] o IH]; [reflexivity|].
  cbn [existsb] in H. apply orb_false_elim in H as [Hv' Ho].
  cbn [replace]. destruct (JS.eqb k' k); cbn [existsb].
  - unfold done_entry at 1. cbn [snd]. now rewrite Hv, Ho.
  - now rewrite Hv', IH.
Qed.

Lemma add_key_not_done o k v :
  existsb done_entry o = false -> is_done (status v) = false ->
  existsb done_entry (add_key k v o) = false.
Proof.
  intros H Hv. induction o as [|[k' v'] o IH]; cbn [add_key existsb].
  - unfold done_entry. cbn [snd]. now rewrite Hv.
  - cbn [existsb] in H. pose proof H as H'. apply orb_false_elim in H as [Hv' Ho].
    destruct (enumerated_before k k'); cbn [existsb].
    + unfold done_entry at 1. cbn [snd]. now rewrite Hv, Hv', Ho.
    + now rewrite Hv', IH.
Qed.

Lemma update_not_done a u st :
  hasAnyDone st = false ->
  match u_status u with Some s => is_done s | None => false end = false ->
  hasAnyDone (updateAgentOutput a u st) = false.
Proof.
  unfold hasAnyDone. fold done_entry. intros H Hu.
  rewrite StoreFacts.agentOutputs_update.
  assert (Hm : is_done (status (merge (nullish (get (agentOutputs st) a) default_output) u))
               = false).
  { cbn [merge status]. destruct (u_status u) as [x|]; cbn [override]; [exact Hu|].
    destruct (get (agentOutputs st) a) as [x|] eqn:Hg; cbn [nullish].
    - now apply (get_not_done _ _ H Hg).
    - reflexivity. }
  unfold set. destruct (get (agentOutputs st) a).
  - now apply replace_not_done.
  - now apply add_key_not_done.
Qed.

Lemma step_not_done st ev :
  marks_done ev = false -> hasAnyDone st = false -> hasAnyDone (on_event st ev) = false.
Proof.
  destruct ev as [sid agents|sub|a sid m|a sid t|a sid c tk|t|[c|]|m];
    cbn [on_event marks_done]; intros Hm H; try exact H.
  - revert st H. induction (nullish agents []) as [|b ags IH]; intros st H; [exact H|].
    cbn [fold_left]. apply IH. now apply update_not_done.
  - destruct (truthy_opt a); [now apply update_not_done | exact H].
  - destruct (truthy_opt a && truthy_opt t); [now apply update_not_done | exact H].
  - now rewrite Hm.
  - now destruct (truthy_opt t).
Qed.

Lemma loop_not_done evs : forall st,
  forallb (fun ev => negb (marks_done ev)) evs = true ->
  hasAnyDone st = false -> hasAnyDone (fold_left on_event evs st) = false.
Proof.
  induction evs as [|ev evs IH]; intros st H Hst; [exact Hst|].
  cbn [forallb] in H. apply andb_prop in H as [Hev H]. apply negb_true_iff in Hev.
  cbn [fold_left]. apply IH; [exact H | now apply step_not_done].
Qed.

End DoneFacts.

(** X19. Only [agent_done] finishes an agent: after a crew stream
    without an [agent_done] event that names an agent, no agent is done
    and the dashboard does not render the row of totals, even when
    [crew_done] reported a total cost. *)
Theorem totals_need_a_done_agent :
  forall (s : CrewPanel.State) (st : AppStore.AppState) (stream : Stream CrewStreamEvent),
    truthy (trim (CrewPanel.task s)) = true -> CrewPanel.isRunning s = false ->
    forallb (fun ev => negb (marks_done ev)) (events stream) = true ->
    CrewDashboard.hasAnyDone (snd (CrewPanel.handleSubmit s st stream)) = false
    /\ CrewDashboard.showsTotal (snd (CrewPanel.handleSubmit s st stream)) = false.
Proof.
  intros s st stream Ht Hr H.
  rewrite CrewStreamFacts.handleSubmit_store by assumption.
  assert (Hd : CrewDashboard.hasAnyDone
                 (fold_left CrewPanel.on_event (events stream) (AppStore.resetCrewState st))
               = false) by now apply DoneFacts.loop_not_done.
  unfold CrewDashboard.showsTotal. now rewrite Hd.
Qed.

Lemma totals_need_a_done_agent_witness :
  let st := snd (CrewPanel.handleSubmit (crew_typed (js "plan it")) AppStore.initial
                   planner_unfinished) in
  AppStore.crewTotalCost st = 0.02%float
  /\ CrewDashboard.hasAnyDone st = false
  /\ CrewDashboard.showsTotal st = false.
Proof.
  split; [reflexivity|].
  exact (totals_need_a_done_agent (crew_typed (js "plan it")) AppStore.initial
           planner_unfinished eq_refl eq_refl eq_refl).
Defined.

Lemma fold_some_info infos : forall i : UsageInfo,
  fold_left (fun _ j => Some j) infos (Some i) <> None.
Proof.
  induction infos as [|j infos IH]; intros i; cbn [fold_left]; [discriminate | apply IH].
Qed.

Lemma last_info_none infos : last_info infos = None <-> infos = [].
Proof.
  split; [|now intros ->].
  destruct infos as [|i infos]; [reflexivity|]. unfold last_info. cbn [fold_left].
  intros H. now apply fold_some_info in H.
Qed.

Lemma unit_infos_nil evs p model :
  unit_infos evs p model = [] <-> usage_events evs = [] /\ streamed_text evs = [].
Proof.
  unfold unit_infos, fallback_infos. split.
  - destruct (usage_events evs); [|discriminate]. cbn.
    destruct (streamed_text evs); [now split | discriminate].
  - now intros [-> ->].
Qed.

(** X20. The row with the combined cost of a comparison is hidden after
    a stream exactly when neither side received a usage-bearing terminal
    event or any text. *)
Theorem combined_cost_row_is_hidden :
  forall (S : Type) (M : UsageStore S) (l r : Choice) (s : ComparePanel.State)
         (st : S) (stream : Stream StreamEvent),
    truthy (trim (ComparePanel.prompt s)) = true -> ComparePanel.busy s = false ->
    let lefts := side_events left (events stream) in
    let rights := side_events right (events stream) in
    hasCost (fst (ComparePanel.submit l r s st stream)) = false <->
    (usage_events lefts = [] /\ streamed_text lefts = [])
    /\ (usage_events rights = [] /\ streamed_text rights = []).
Proof.
  intros S M l r s st stream Hp Hb lefts rights. subst lefts rights.
  rewrite CompareFacts.compare_submit_spec by assumption. cbn [fst].
  destruct (CompareFacts.compare_run_spec l r s st stream) as (Hl & Hr & _).
  unfold hasCost. rewrite Hl, Hr.
  rewrite <- (unit_infos_nil (side_events left (events stream))
                (ComparePanel.prompt s) (modelId l)).
  rewrite <- (unit_infos_nil (side_events right (events stream))
                (ComparePanel.prompt s) (modelId r)).
  rewrite <- !last_info_none.
  destruct (last_info (unit_infos (side_events left (events stream)) _ _)),
           (last_info (unit_infos (side_events right (events stream)) _ _));
    split; try discriminate; try (intros [H1 H2]; discriminate); auto.
Qed.

Lemma combined_cost_row_is_hidden_witness :
  hasCost (fst (ComparePanel.submit gpt4o haiku (compare_typed (js "hi")) AppStore.initial
                  error_only)) = false.
Proof.
  apply (combined_cost_row_is_hidden _ gpt4o haiku (compare_typed (js "hi"))
           AppStore.initial error_only eq_refl eq_refl).
  repeat split; reflexivity.
Defined.

Lemma inert_loop_body (S : Type) (M : UsageStore S) (choice : Choice)
    (r : @SingleChatPanel.Run S) (ev : StreamEvent) :
  inert_in_single ev = true -> SingleChatPanel.loop_body choice r ev = r.
Proof.
  destruct ev as [|[t|] sd|sd [u|]|sd [u|]|m sd]; cbn; try discriminate; try reflexivity.
  destruct (truthy t); [discriminate | reflexivity].
Qed.

Lemma inert_loop (S : Type) (M : UsageStore S) (choice : Choice) (evs : list StreamEvent) :
  forall r : @SingleChatPanel.Run S,
    fold_left (SingleChatPanel.loop_body choice) evs r =
    fold_left (SingleChatPanel.loop_body choice)
      (filter (fun ev => negb (inert_in_single ev)) evs) r.
Proof.
  induction evs as [|ev evs IH]; intros r; [reflexivity|].
  cbn [filter fold_left]. destruct (inert_in_single ev) eqn:Hi; cbn [negb fold_left].
  - now rewrite inert_loop_body.
  - apply IH.
Qed.

(** X21. The single panel acts on text and on usage only: the outcome of
    a send is that of the stream without its [start] events, its [error]
    events, its [delta] events without text and its terminal events
    without usage. In particular an [error] event shows nothing and
    stops nothing. *)
Theorem single_panel_ignores_inert_events :
  forall (S : Type) (M : UsageStore S) (choice : Choice) (s : SingleChatPanel.State)
         (st : S) (evs : list StreamEvent) (fin : Ending),
    SingleChatPanel.submit choice s st {| events := evs; ending := fin |} =
    SingleChatPanel.submit choice s st
      {| events := filter (fun ev => negb (inert_in_single ev)) evs; ending := fin |}.
Proof.
  intros S M choice s st evs fin.
  unfold SingleChatPanel.submit, SingleChatPanel.run. cbn [events ending].
  now rewrite <- inert_loop.
Qed.
